(** * The study-aid application: history store and request sessions

    A shallow embedding of [src/App.tsx], [src/types.ts] and
    [src/services/gemini.ts].  The React component is modelled as a record
    of its [useState] cells; every handler is a function on that record
    (or on the surrounding world when it starts a network call), and the
    browser (Web Storage, [JSON], the clock, the dialogs, the generative-AI
    service) is an explicit interface or an explicit input of the action
    that consults it. *)

From Stdlib Require Import Ascii.
From stdpp Require Import base tactics option list strings pretty gmap sets fin_sets.

Set Warnings "-register-all".

Open Scope string_scope.
Open Scope list_scope.

(** ** JavaScript completions: a value or a thrown exception *)

Inductive Completion (A : Type) : Type :=
| Normal (a : A)
| Throw (e : string).
Arguments Normal {A} a.
Arguments Throw {A} e.

#[export] Instance Completion_ret : MRet Completion := @Normal.

#[export] Instance Completion_bind : MBind Completion := λ A B k c,
  match c with
  | Normal a => k a
  | Throw e => Throw e
  end.

(** [try { body } catch (e) { handler(e) }] *)
Definition try_catch {A} (body : Completion A) (handler : string → Completion A) : Completion A :=
  match body with
  | Normal a => Normal a
  | Throw e => handler e
  end.

(** Truthiness of the two kinds of value the code tests with [!x] and [x ? _ : _]:
    a string is falsy exactly when it is empty; [null] and [undefined] are falsy. *)
Definition truthy (s : string) : bool :=
  match s with
  | EmptyString => false
  | String _ _ => true
  end.

Definition truthy_opt (o : option string) : bool :=
  match o with
  | None => false
  | Some s => truthy s
  end.

(** ** Data model ([src/types.ts]) *)

Inductive ActiveTab := ANALYZE | VOCABULARY | HISTORY | PROFILE.
Inductive Status := IDLE | LOADING | SUCCESS | ERROR.
Inductive Subject := MATH | PHYSICS | CHEMISTRY | BIOLOGY | ENGLISH.

#[export] Instance ActiveTab_eq_dec : EqDecision ActiveTab.
Proof. solve_decision. Defined.
#[export] Instance Status_eq_dec : EqDecision Status.
Proof. solve_decision. Defined.
#[export] Instance Subject_eq_dec : EqDecision Subject.
Proof. solve_decision. Defined.

Record PracticeQuestion := {
  question : string;
  answer : string;
  explanation : string
}.

Record AnalysisResponse := {
  mistakeDiagnosis : string;
  coreConcept : string;
  stepByStepSolution : list string;
  practiceQuestion : PracticeQuestion
}.

Module HistoryItem.
Record t := {
  id : string;
  timestamp : Z;
  subject : Subject;
  originalProblem : string;
  originalImage : option string;
  result : AnalysisResponse
}.
End HistoryItem.

Record VocabularyItem := {
  word : string;
  pronunciation : string;
  definition : string;
  example : string
}.

Record VocabularyResponse := {
  topic : string;
  words : list VocabularyItem
}.

#[export] Instance PracticeQuestion_eq_dec : EqDecision PracticeQuestion.
Proof. solve_decision. Defined.
#[export] Instance AnalysisResponse_eq_dec : EqDecision AnalysisResponse.
Proof. solve_decision. Defined.
#[export] Instance HistoryItem_eq_dec : EqDecision HistoryItem.t.
Proof. solve_decision. Defined.
#[export] Instance VocabularyItem_eq_dec : EqDecision VocabularyItem.
Proof. solve_decision. Defined.
#[export] Instance VocabularyResponse_eq_dec : EqDecision VocabularyResponse.
Proof. solve_decision. Defined.

(** ** The browser, as the code sees it *)

(** [JSON.parse(text) as T] and [JSON.stringify(v)] at a declared type [T].
    The TypeScript cast is unchecked; the embedding follows the declared
    types, so what the parser does with a well-formed document of another
    shape is left to the instance. *)
Class JSON (T : Type) := {
  JSON_parse : string → Completion T;
  JSON_stringify : T → string
}.

(** [localStorage]: both calls may throw (storage denied, quota exceeded). *)
Class Storage (S : Type) := {
  getItem : S → string → Completion (option string);
  setItem : S → string → string → Completion S
}.

(** What the Web Storage interface promises of a write that returns. *)
Class StorageSpec (S : Type) `{Storage S} : Prop :=
  getItem_setItem (s : S) (k v : string) (s' : S) :
    setItem s k v = Normal s' → getItem s' k = Normal (Some v).

(** [Date.now().toString()]: the decimal numeral of an integral number. *)
Definition toString (n : Z) : string := pretty n.

(** ** The component and its world *)

Section App.
Context `{JSON_history : JSON (list HistoryItem.t)}.
Context `{JSON_analysis : JSON AnalysisResponse}.
Context `{JSON_vocabulary : JSON VocabularyResponse}.
Context {Store : Type} `{Storage_Store : Storage Store}.

(** *** [src/services/gemini.ts]

    [reply] is what [await ai.models.generateContent(...)] produced: a thrown
    error, or the response's [text] (possibly [undefined]).  The prompt built
    from the arguments does not influence how the reply is turned into a
    result, so only the reply is a parameter. *)
Definition analyzeProblem (reply : Completion (option string)) : Completion AnalysisResponse :=
  try_catch
    (text ← reply;
     match text with
     | Some text => if truthy text then JSON_parse text else Throw "No response from AI"
     | None => Throw "No response from AI"
     end)
    (λ error, Throw error).

Definition generateVocabulary (reply : Completion (option string)) : Completion VocabularyResponse :=
  try_catch
    (text ← reply;
     match text with
     | Some text => if truthy text then JSON_parse text else Throw "No response from AI"
     | None => Throw "No response from AI"
     end)
    (λ error, Throw error).

(** *** The state cells of [App]

    One field per [useState].  [historyRef] is not a cell of its own: it is
    the identity of the array held in [history], which is what the
    dependency list [[history]] of the persistence effect compares. *)
Record AppState := {
  activeTab : ActiveTab;
  subject : Subject;
  inputText : string;
  selectedImage : option string;
  status : Status;
  result : option AnalysisResponse;
  errorMsg : option string;
  vocabTopic : string;
  vocabStatus : Status;
  vocabResult : option VocabularyResponse;
  revealedWords : gset nat;
  history : list HistoryItem.t;
  historyRef : nat
}.

Definition setActiveTab (v : ActiveTab) (st : AppState) : AppState :=
  {| activeTab := v; subject := subject st; inputText := inputText st;
     selectedImage := selectedImage st; status := status st; result := result st;
     errorMsg := errorMsg st; vocabTopic := vocabTopic st; vocabStatus := vocabStatus st;
     vocabResult := vocabResult st; revealedWords := revealedWords st;
     history := history st; historyRef := historyRef st |}.

Definition setSubject (v : Subject) (st : AppState) : AppState :=
  {| activeTab := activeTab st; subject := v; inputText := inputText st;
     selectedImage := selectedImage st; status := status st; result := result st;
     errorMsg := errorMsg st; vocabTopic := vocabTopic st; vocabStatus := vocabStatus st;
     vocabResult := vocabResult st; revealedWords := revealedWords st;
     history := history st; historyRef := historyRef st |}.

Definition setInputText (v : string) (st : AppState) : AppState :=
  {| activeTab := activeTab st; subject := subject st; inputText := v;
     selectedImage := selectedImage st; status := status st; result := result st;
     errorMsg := errorMsg st; vocabTopic := vocabTopic st; vocabStatus := vocabStatus st;
     vocabResult := vocabResult st; revealedWords := revealedWords st;
     history := history st; historyRef := historyRef st |}.

Definition setSelectedImage (v : option string) (st : AppState) : AppState :=
  {| activeTab := activeTab st; subject := subject st; inputText := inputText st;
     selectedImage := v; status := status st; result := result st;
     errorMsg := errorMsg st; vocabTopic := vocabTopic st; vocabStatus := vocabStatus st;
     vocabResult := vocabResult st; revealedWords := revealedWords st;
     history := history st; historyRef := historyRef st |}.

Definition setStatus (v : Status) (st : AppState) : AppState :=
  {| activeTab := activeTab st; subject := subject st; inputText := inputText st;
     selectedImage := selectedImage st; status := v; result := result st;
     errorMsg := errorMsg st; vocabTopic := vocabTopic st; vocabStatus := vocabStatus st;
     vocabResult := vocabResult st; revealedWords := revealedWords st;
     history := history st; historyRef := historyRef st |}.

Definition setResult (v : option AnalysisResponse) (st : AppState) : AppState :=
  {| activeTab := activeTab st; subject := subject st; inputText := inputText st;
     selectedImage := selectedImage st; status := status st; result := v;
     errorMsg := errorMsg st; vocabTopic := vocabTopic st; vocabStatus := vocabStatus st;
     vocabResult := vocabResult st; revealedWords := revealedWords st;
     history := history st; historyRef := historyRef st |}.

Definition setErrorMsg (v : option string) (st : AppState) : AppState :=
  {| activeTab := activeTab st; subject := subject st; inputText := inputText st;
     selectedImage := selectedImage st; status := status st; result := result st;
     errorMsg := v; vocabTopic := vocabTopic st; vocabStatus := vocabStatus st;
     vocabResult := vocabResult st; revealedWords := revealedWords st;
     history := history st; historyRef := historyRef st |}.

Definition setVocabTopic (v : string) (st : AppState) : AppState :=
  {| activeTab := activeTab st; subject := subject st; inputText := inputText st;
     selectedImage := selectedImage st; status := status st; result := result st;
     errorMsg := errorMsg st; vocabTopic := v; vocabStatus := vocabStatus st;
     vocabResult := vocabResult st; revealedWords := revealedWords st;
     history := history st; historyRef := historyRef st |}.

Definition setVocabStatus (v : Status) (st : AppState) : AppState :=
  {| activeTab := activeTab st; subject := subject st; inputText := inputText st;
     selectedImage := selectedImage st; status := status st; result := result st;
     errorMsg := errorMsg st; vocabTopic := vocabTopic st; vocabStatus := v;
     vocabResult := vocabResult st; revealedWords := revealedWords st;
     history := history st; historyRef := historyRef st |}.

Definition setVocabResult (v : option VocabularyResponse) (st : AppState) : AppState :=
  {| activeTab := activeTab st; subject := subject st; inputText := inputText st;
     selectedImage := selectedImage st; status := status st; result := result st;
     errorMsg := errorMsg st; vocabTopic := vocabTopic st; vocabStatus := vocabStatus st;
     vocabResult := v; revealedWords := revealedWords st;
     history := history st; historyRef := historyRef st |}.

Definition setRevealedWords (v : gset nat) (st : AppState) : AppState :=
  {| activeTab := activeTab st; subject := subject st; inputText := inputText st;
     selectedImage := selectedImage st; status := status st; result := result st;
     errorMsg := errorMsg st; vocabTopic := vocabTopic st; vocabStatus := vocabStatus st;
     vocabResult := vocabResult st; revealedWords := v;
     history := history st; historyRef := historyRef st |}.

(** [setHistory(prev => f(prev))]; [setHistory(v)] is [setHistory (λ _, v)].
    Every call in the source passes a freshly built array, hence the new
    identity. *)
Definition setHistory (f : list HistoryItem.t → list HistoryItem.t) (st : AppState) : AppState :=
  {| activeTab := activeTab st; subject := subject st; inputText := inputText st;
     selectedImage := selectedImage st; status := status st; result := result st;
     errorMsg := errorMsg st; vocabTopic := vocabTopic st; vocabStatus := vocabStatus st;
     vocabResult := vocabResult st; revealedWords := revealedWords st;
     history := f (history st); historyRef := S (historyRef st) |}.

(** *** Handlers that touch only the component state *)

(** [reader.onloadend] of [handleImageUpload]: [reader.result] is the data
    URL, or [null] when the read failed. *)
Definition handleImageUpload (readerResult : option string) (st : AppState) : AppState :=
  setSelectedImage readerResult st.

Definition removeImage (st : AppState) : AppState :=
  setSelectedImage None st.

Definition toggleWordReveal (index : nat) (st : AppState) : AppState :=
  let newSet := revealedWords st in
  if decide (index ∈ newSet) then setRevealedWords (newSet ∖ {[ index ]}) st
  else setRevealedWords ({[ index ]} ∪ newSet) st.

Definition toggleAllWords (st : AppState) : AppState :=
  match vocabResult st with
  | None => st
  | Some v =>
      if decide (size (revealedWords st) = length (words v))
      then setRevealedWords ∅ st
      else setRevealedWords (list_to_set (imap (λ i _, i) (words v))) st
  end.

Definition loadHistoryItem (item : HistoryItem.t) (st : AppState) : AppState :=
  setActiveTab ANALYZE
    (setStatus SUCCESS
      (setResult (Some (HistoryItem.result item))
        (setSelectedImage
           (if truthy_opt (HistoryItem.originalImage item)
            then HistoryItem.originalImage item else None)
          (setInputText (HistoryItem.originalProblem item)
            (setSubject (HistoryItem.subject item) st))))).

(** [confirmed] is the answer of [window.confirm]. *)
Definition deleteHistoryItem (confirmed : bool) (id : string) (st : AppState) : AppState :=
  if confirmed
  then setHistory (λ prev, filter (λ item, HistoryItem.id item ≠ id) prev) st
  else st.

Definition clearHistory (confirmed : bool) (st : AppState) : AppState :=
  if confirmed then setHistory (λ _, []) st else st.

(** *** The asynchronous handlers

    [handleSubmit] runs up to its [await] and leaves a call in flight; the
    call keeps the values its closure captured.  [handleSubmit_resume] is the
    rest of the function, run when the promise settles: the remainder of the
    [try] block on a result, the [catch] block on a rejection.  [now1] and
    [now2] are the two readings of [Date.now()]. *)
Record AnalysisCall := {
  call_inputText : string;
  call_subject : Subject;
  call_selectedImage : option string
}.

Record World := {
  app : AppState;
  localStorage : Store;
  analyzing : list AnalysisCall;
  generating : list string
}.

Definition with_app (f : AppState → AppState) (w : World) : World :=
  {| app := f (app w); localStorage := localStorage w;
     analyzing := analyzing w; generating := generating w |}.

Definition handleSubmit (w : World) : World :=
  let st := app w in
  if negb (truthy (inputText st)) && negb (truthy_opt (selectedImage st)) then w
  else
    {| app := setErrorMsg None (setResult None (setStatus LOADING st));
       localStorage := localStorage w;
       analyzing := analyzing w ++
         [ {| call_inputText := inputText st; call_subject := subject st;
              call_selectedImage := selectedImage st |} ];
       generating := generating w |}.

Definition newItem (call : AnalysisCall) (data : AnalysisResponse) (now1 now2 : Z) : HistoryItem.t :=
  {| HistoryItem.id := toString now1;
     HistoryItem.timestamp := now2;
     HistoryItem.subject := call_subject call;
     HistoryItem.originalProblem := call_inputText call;
     HistoryItem.originalImage := call_selectedImage call;
     HistoryItem.result := data |}.

Definition analysisFailedMsg : string :=
  "分析失败，请稍后重试。可能网络不稳定或图片过大。".

Definition handleSubmit_resume (call : AnalysisCall) (outcome : Completion AnalysisResponse)
    (now1 now2 : Z) (st : AppState) : AppState :=
  match outcome with
  | Normal data =>
      setHistory (λ prev, newItem call data now1 now2 :: prev)
        (setStatus SUCCESS (setResult (Some data) st))
  | Throw _ =>
      setErrorMsg (Some analysisFailedMsg) (setStatus ERROR st)
  end.

Definition handleVocabSubmit (w : World) : World :=
  let st := app w in
  if negb (truthy (vocabTopic st)) then w
  else
    {| app := setRevealedWords ∅ (setVocabResult None (setVocabStatus LOADING st));
       localStorage := localStorage w;
       analyzing := analyzing w;
       generating := generating w ++ [vocabTopic st] |}.

Definition handleVocabSubmit_resume (outcome : Completion VocabularyResponse)
    (st : AppState) : AppState :=
  match outcome with
  | Normal data => setVocabStatus SUCCESS (setVocabResult (Some data) st)
  | Throw _ => setVocabStatus ERROR st
  end.

(** *** Loading and saving the history *)

Definition storageKey : string := "study-app-history".

(** The initializer of the [history] cell. *)
Definition load (s : Store) : Completion (list HistoryItem.t) :=
  try_catch
    (saved ← getItem s storageKey;
     match saved with
     | Some text => if truthy text then JSON_parse text else Normal []
     | None => Normal []
     end)
    (λ e, Normal []).

(** The initializer's value; its second branch is dead code ([load_never_throws]). *)
Definition initialHistory (s : Store) : list HistoryItem.t :=
  match load s with
  | Normal h => h
  | Throw _ => []
  end.

(** The body of the persistence effect: a failed write is logged and dropped. *)
Definition persistHistory (st : AppState) (s : Store) : Store :=
  match setItem s storageKey (JSON_stringify (history st)) with
  | Normal s' => s'
  | Throw _ => s
  end.

Definition initialState (h : list HistoryItem.t) : AppState :=
  {| activeTab := ANALYZE; subject := MATH; inputText := ""; selectedImage := None;
     status := IDLE; result := None; errorMsg := None;
     vocabTopic := ""; vocabStatus := IDLE; vocabResult := None; revealedWords := ∅;
     history := h; historyRef := 0 |}.

(** First render: the cells are initialised and the effect runs once. *)
Definition mount (s : Store) : World :=
  let st := initialState (initialHistory s) in
  {| app := st; localStorage := persistHistory st s; analyzing := []; generating := [] |}.

(** *** What the user and the environment can do

    An action on an element that is not rendered, or on a disabled button,
    does nothing.  A settling action names the call in flight by its
    position. *)
Inductive Action :=
| ClickTab (tab : ActiveTab)
| ClickSubject (subj : Subject)
| ChangeInputText (value : string)
| FileRead (readerResult : option string)
| ClickRemoveImage
| ClickSubmit
| AnalysisSettles (k : nat) (reply : Completion (option string)) (now1 now2 : Z)
| ChangeVocabTopic (value : string)
| KeyDownVocabTopic (key : string)
| ClickVocabSubmit
| VocabularySettles (k : nat) (reply : Completion (option string))
| ClickCard (idx : nat)
| ClickToggleAll
| ClickHistoryDetails (i : nat)
| ClickHistoryDelete (i : nat) (confirmed : bool)
| ClickClearHistory (confirmed : bool).

(** The [disabled] attribute of the two submit buttons. *)
Definition submitDisabled (st : AppState) : bool :=
  bool_decide (status st = LOADING)
  || (negb (truthy (inputText st)) && negb (truthy_opt (selectedImage st))).

Definition vocabSubmitDisabled (st : AppState) : bool :=
  bool_decide (vocabStatus st = LOADING) || negb (truthy (vocabTopic st)).

Definition showing (tab : ActiveTab) (w : World) : bool :=
  bool_decide (activeTab (app w) = tab).

(** The handler an action runs. *)
Definition handle (a : Action) (w : World) : World :=
  match a with
  | ClickTab tab =>
      if bool_decide (tab = PROFILE) then w else with_app (setActiveTab tab) w
  | ClickSubject subj =>
      if showing ANALYZE w then with_app (setSubject subj) w else w
  | ChangeInputText value =>
      if showing ANALYZE w then with_app (setInputText value) w else w
  | FileRead readerResult => with_app (handleImageUpload readerResult) w
  | ClickRemoveImage =>
      if showing ANALYZE w && truthy_opt (selectedImage (app w))
      then with_app removeImage w else w
  | ClickSubmit =>
      if showing ANALYZE w && negb (submitDisabled (app w)) then handleSubmit w else w
  | AnalysisSettles k reply now1 now2 =>
      match analyzing w !! k with
      | Some call =>
          {| app := handleSubmit_resume call (analyzeProblem reply) now1 now2 (app w);
             localStorage := localStorage w;
             analyzing := delete k (analyzing w);
             generating := generating w |}
      | None => w
      end
  | ChangeVocabTopic value =>
      if showing VOCABULARY w then with_app (setVocabTopic value) w else w
  | KeyDownVocabTopic key =>
      if showing VOCABULARY w && bool_decide (key = "Enter") then handleVocabSubmit w else w
  | ClickVocabSubmit =>
      if showing VOCABULARY w && negb (vocabSubmitDisabled (app w))
      then handleVocabSubmit w else w
  | VocabularySettles k reply =>
      match generating w !! k with
      | Some _ =>
          {| app := handleVocabSubmit_resume (generateVocabulary reply) (app w);
             localStorage := localStorage w;
             analyzing := analyzing w;
             generating := delete k (generating w) |}
      | None => w
      end
  | ClickCard idx =>
      match vocabResult (app w) with
      | Some v =>
          if showing VOCABULARY w && bool_decide (idx < length (words v))
          then with_app (toggleWordReveal idx) w else w
      | None => w
      end
  | ClickToggleAll =>
      if showing VOCABULARY w && bool_decide (is_Some (vocabResult (app w)))
      then with_app toggleAllWords w else w
  | ClickHistoryDetails i =>
      match history (app w) !! i with
      | Some item => if showing HISTORY w then with_app (loadHistoryItem item) w else w
      | None => w
      end
  | ClickHistoryDelete i confirmed =>
      match history (app w) !! i with
      | Some item =>
          if showing HISTORY w
          then with_app (deleteHistoryItem confirmed (HistoryItem.id item)) w else w
      | None => w
      end
  | ClickClearHistory confirmed =>
      if showing HISTORY w && bool_decide (0 < length (history (app w)))
      then with_app (clearHistory confirmed) w else w
  end.

(** After the handler the component renders again; the persistence effect
    runs when the array in [history] is not the one of the previous render. *)
Definition commit (before : AppState) (w : World) : World :=
  if decide (historyRef (app w) = historyRef before) then w
  else
    {| app := app w; localStorage := persistHistory (app w) (localStorage w);
       analyzing := analyzing w; generating := generating w |}.

Definition step (w : World) (a : Action) : World :=
  commit (app w) (handle a w).

Definition run (w : World) (trace : list Action) : World :=
  foldl step w trace.

End App.

Arguments World Store : clear implicits.

(** ** A browser to run the component in

    [Json] reads and writes JSON text (RFC 8259; a number keeps its decimal
    mantissa and exponent).  [Browser] gives the component a storage area with
    a quota and [JSON] at the three declared types. *)

Module Json.

Inductive value :=
| Null
| Bool (b : bool)
| Num (mantissa exponent : Z)
| Str (s : string)
| Arr (elements : list value)
| Obj (members : list (string * value)).

Local Open Scope char_scope.
Local Open Scope N_scope.
Local Open Scope list_scope.

Definition is_ws (c : ascii) : bool :=
  match c with
  | " " | "009" | "010" | "013" => true
  | _ => false
  end.

Fixpoint skip_ws (cs : list ascii) : list ascii :=
  match cs with
  | c :: cs' => if is_ws c then skip_ws cs' else cs
  | [] => []
  end.

Definition digit (c : ascii) : option N :=
  let n := N_of_ascii c in
  if (48 <=? n) && (n <=? 57) then Some (n - 48) else None.

Definition hex_digit (c : ascii) : option N :=
  let n := N_of_ascii c in
  if (48 <=? n) && (n <=? 57) then Some (n - 48)
  else if (65 <=? n) && (n <=? 70) then Some (n - 55)
  else if (97 <=? n) && (n <=? 102) then Some (n - 87)
  else None.

(** The longest prefix of digits, most significant first. *)
Fixpoint digits (cs : list ascii) : list N * list ascii :=
  match cs with
  | c :: cs' =>
      match digit c with
      | Some d => let '(ds, rest) := digits cs' in (d :: ds, rest)
      | None => ([], cs)
      end
  | [] => ([], [])
  end.

Definition decimal (ds : list N) : Z :=
  foldl (λ acc d, 10 * acc + Z.of_N d)%Z 0%Z ds.

(** UTF-8 (generalised to lone surrogates) of a code point below 2^21. *)
Definition utf8 (cp : N) : list ascii :=
  if cp <? 128 then [ascii_of_N cp]
  else if cp <? 2048 then
    [ascii_of_N (192 + cp / 64); ascii_of_N (128 + cp mod 64)]
  else if cp <? 65536 then
    [ascii_of_N (224 + cp / 4096); ascii_of_N (128 + (cp / 64) mod 64);
     ascii_of_N (128 + cp mod 64)]
  else
    [ascii_of_N (240 + cp / 262144); ascii_of_N (128 + (cp / 4096) mod 64);
     ascii_of_N (128 + (cp / 64) mod 64); ascii_of_N (128 + cp mod 64)].

Definition hex4 (a b c d : ascii) : option N :=
  a ← hex_digit a; b ← hex_digit b; c ← hex_digit c; d ← hex_digit d;
  Some (((a * 16 + b) * 16 + c) * 16 + d).

(** The characters of a string literal after its opening quote, up to the
    closing quote.  [high] is a high surrogate read from the escape just
    before, waiting for its low half. *)
Fixpoint string_chars (high : option N) (cs : list ascii) : option (list ascii * list ascii) :=
  let pending := from_option utf8 [] high in
  match cs with
  | "034" :: rest => Some (pending, rest)
  | "\" :: "u" :: a :: b :: c :: d :: rest =>
      u ← hex4 a b c d;
      match high with
      | Some h =>
          if (56320 <=? u) && (u <? 57344) then
            '(s, rest') ← string_chars None rest;
            Some (utf8 (65536 + (h - 55296) * 1024 + (u - 56320)) ++ s, rest')
          else if (55296 <=? u) && (u <? 56320) then
            '(s, rest') ← string_chars (Some u) rest; Some (pending ++ s, rest')
          else
            '(s, rest') ← string_chars None rest; Some (pending ++ utf8 u ++ s, rest')
      | None =>
          if (55296 <=? u) && (u <? 56320) then string_chars (Some u) rest
          else '(s, rest') ← string_chars None rest; Some (utf8 u ++ s, rest')
      end
  | "\" :: e :: rest =>
      c ← match e with
          | "034" => Some "034" | "\" => Some "\" | "/" => Some "/"
          | "b" => Some "008" | "f" => Some "012" | "n" => Some "010"
          | "r" => Some "013" | "t" => Some "009"
          | _ => None
          end;
      '(s, rest') ← string_chars None rest; Some (pending ++ c :: s, rest')
  | c :: rest =>
      if N_of_ascii c <? 32 then None
      else '(s, rest') ← string_chars None rest; Some (pending ++ c :: s, rest')
  | [] => None
  end.

(** [-? int frac? exp?], as mantissa and decimal exponent. *)
Definition number (cs : list ascii) : option (value * list ascii) :=
  let '(neg, cs) := match cs with "-" :: r => (true, r) | _ => (false, cs) end in
  let '(int, cs) := digits cs in
  match int with
  | [] => None
  | d :: more =>
      if (d =? 0) && negb (bool_decide (more = [])) then None
      else
        '(frac, cs) ← match cs with
                      | "." :: r =>
                          let '(ds, r') := digits r in
                          if bool_decide (ds = []) then None else Some (ds, r')
                      | _ => Some ([], cs)
                      end;
        '(exp, cs) ← match cs with
                     | "e" :: r | "E" :: r =>
                         let '(sign, r) := match r with
                                           | "-" :: r' => ((-1)%Z, r')
                                           | "+" :: r' => (1%Z, r')
                                           | _ => (1%Z, r)
                                           end in
                         let '(ds, r') := digits r in
                         if bool_decide (ds = []) then None else Some ((sign * decimal ds)%Z, r')
                     | _ => Some (0%Z, cs)
                     end;
        let m := decimal (int ++ frac) in
        Some (Num (if neg then (- m)%Z else m) (exp - Z.of_nat (length frac))%Z, cs)
  end.

Fixpoint parse_value (fuel : nat) (cs : list ascii) : option (value * list ascii) :=
  match fuel with
  | O => None
  | S fuel =>
      match skip_ws cs with
      | "n" :: "u" :: "l" :: "l" :: rest => Some (Null, rest)
      | "t" :: "r" :: "u" :: "e" :: rest => Some (Bool true, rest)
      | "f" :: "a" :: "l" :: "s" :: "e" :: rest => Some (Bool false, rest)
      | "034" :: rest => '(s, rest') ← string_chars None rest; Some (Str (String.string_of_list_ascii s), rest')
      | "[" :: rest =>
          match skip_ws rest with
          | "]" :: rest' => Some (Arr [], rest')
          | _ => '(vs, rest') ← parse_elements fuel rest; Some (Arr vs, rest')
          end
      | "{" :: rest =>
          match skip_ws rest with
          | "}" :: rest' => Some (Obj [], rest')
          | _ => '(ms, rest') ← parse_members fuel rest; Some (Obj ms, rest')
          end
      | cs' => number cs'
      end
  end
with parse_elements (fuel : nat) (cs : list ascii) : option (list value * list ascii) :=
  match fuel with
  | O => None
  | S fuel =>
      '(v, rest) ← parse_value fuel cs;
      match skip_ws rest with
      | "," :: rest' => '(vs, rest'') ← parse_elements fuel rest'; Some (v :: vs, rest'')
      | "]" :: rest' => Some ([v], rest')
      | _ => None
      end
  end
with parse_members (fuel : nat) (cs : list ascii) : option (list (string * value) * list ascii) :=
  match fuel with
  | O => None
  | S fuel =>
      match skip_ws cs with
      | "034" :: rest =>
          '(k, rest) ← string_chars None rest;
          match skip_ws rest with
          | ":" :: rest =>
              '(v, rest) ← parse_value fuel rest;
              let m := (String.string_of_list_ascii k, v) in
              match skip_ws rest with
              | "," :: rest' => '(ms, rest'') ← parse_members fuel rest'; Some (m :: ms, rest'')
              | "}" :: rest' => Some ([m], rest')
              | _ => None
              end
          | _ => None
          end
      | _ => None
      end
  end.

Definition parse (text : string) : option value :=
  let cs := String.list_ascii_of_string text in
  match parse_value (2 * length cs + 2) cs with
  | Some (v, rest) => if bool_decide (skip_ws rest = []) then Some v else None
  | None => None
  end.

(** [JSON.stringify]: the text of a value, without white space. *)
Definition hex_char (n : N) : ascii :=
  ascii_of_N (if n <? 10 then 48 + n else 87 + n).

Definition escape (c : ascii) : list ascii :=
  match c with
  | "034" => ["\"; "034"]
  | "\" => ["\"; "\"]
  | "008" => ["\"; "b"]
  | "012" => ["\"; "f"]
  | "010" => ["\"; "n"]
  | "013" => ["\"; "r"]
  | "009" => ["\"; "t"]
  | _ =>
      let n := N_of_ascii c in
      if n <? 32 then ["\"; "u"; "0"; "0"; hex_char (n / 16); hex_char (n mod 16)]
      else [c]
  end.

Definition quote (s : string) : string :=
  String.string_of_list_ascii
    ("034" :: flat_map escape (String.list_ascii_of_string s) ++ ["034"]).

Definition join (sep : string) (parts : list string) : string :=
  match parts with
  | [] => EmptyString
  | p :: ps => foldl (λ acc q, acc +:+ sep +:+ q) p ps
  end.

Fixpoint print (v : value) : string :=
  match v with
  | Null => "null"
  | Bool true => "true"
  | Bool false => "false"
  | Num m e => if (e =? 0)%Z then pretty m else pretty m +:+ "e" +:+ pretty e
  | Str s => quote s
  | Arr vs =>
      "[" +:+ join "," ((fix all vs := match vs with
                                      | v :: vs' => print v :: all vs'
                                      | [] => []
                                      end) vs) +:+ "]"
  | Obj ms =>
      "{" +:+ join "," ((fix all ms := match ms with
                                      | (k, v) :: ms' => (quote k +:+ ":" +:+ print v) :: all ms'
                                      | [] => []
                                      end) ms) +:+ "}"
  end.

(** Reading a value at a declared type. *)
Definition member (k : string) (v : value) : option value :=
  match v with
  | Obj ms => snd <$> last (filter (λ m, fst m = k) ms)
  | _ => None
  end.

Definition as_string (v : value) : option string :=
  match v with Str s => Some s | _ => None end.

Definition as_integer (v : value) : option Z :=
  match v with
  | Num m e =>
      if (0 <=? e)%Z then Some (m * 10 ^ e)%Z
      else
        let d := (10 ^ (- e))%Z in
        if (m mod d =? 0)%Z then Some (m / d)%Z else None
  | _ => None
  end.

Definition as_list {A} (f : value → option A) (v : value) : option (list A) :=
  match v with Arr vs => mapM f vs | _ => None end.

End Json.

Module Browser.
Import Json.

Definition subject_name (s : Subject) : string :=
  match s with
  | MATH => "MATH"
  | PHYSICS => "PHYSICS"
  | CHEMISTRY => "CHEMISTRY"
  | BIOLOGY => "BIOLOGY"
  | ENGLISH => "ENGLISH"
  end.

Definition subject_of (name : string) : option Subject :=
  find (λ s, bool_decide (subject_name s = name)) [MATH; PHYSICS; CHEMISTRY; BIOLOGY; ENGLISH].

Definition of_question (q : PracticeQuestion) : value :=
  Obj [("question", Str (question q)); ("answer", Str (answer q));
       ("explanation", Str (explanation q))].

Definition of_analysis (r : AnalysisResponse) : value :=
  Obj [("mistakeDiagnosis", Str (mistakeDiagnosis r));
       ("coreConcept", Str (coreConcept r));
       ("stepByStepSolution", Arr (Str <$> stepByStepSolution r));
       ("practiceQuestion", of_question (practiceQuestion r))].

Definition of_item (item : HistoryItem.t) : value :=
  Obj [("id", Str (HistoryItem.id item));
       ("timestamp", Num (HistoryItem.timestamp item) 0);
       ("subject", Str (subject_name (HistoryItem.subject item)));
       ("originalProblem", Str (HistoryItem.originalProblem item));
       ("originalImage", from_option Str Null (HistoryItem.originalImage item));
       ("result", of_analysis (HistoryItem.result item))].

Definition of_word (x : VocabularyItem) : value :=
  Obj [("word", Str (word x)); ("pronunciation", Str (pronunciation x));
       ("definition", Str (definition x)); ("example", Str (example x))].

Definition of_vocabulary (r : VocabularyResponse) : value :=
  Obj [("topic", Str (topic r)); ("words", Arr (of_word <$> words r))].

Definition to_question (v : value) : option PracticeQuestion :=
  q ← member "question" v ≫= as_string;
  a ← member "answer" v ≫= as_string;
  e ← member "explanation" v ≫= as_string;
  Some {| question := q; answer := a; explanation := e |}.

Definition to_analysis (v : value) : option AnalysisResponse :=
  d ← member "mistakeDiagnosis" v ≫= as_string;
  c ← member "coreConcept" v ≫= as_string;
  s ← member "stepByStepSolution" v ≫= as_list as_string;
  q ← member "practiceQuestion" v ≫= to_question;
  Some {| mistakeDiagnosis := d; coreConcept := c; stepByStepSolution := s;
          practiceQuestion := q |}.

(** [originalImage] is optional: absent, [null] or a string. *)
Definition to_image (v : option value) : option (option string) :=
  match v with
  | None | Some Null => Some None
  | Some (Str s) => Some (Some s)
  | Some _ => None
  end.

Definition to_item (v : value) : option HistoryItem.t :=
  i ← member "id" v ≫= as_string;
  t ← member "timestamp" v ≫= as_integer;
  s ← (member "subject" v ≫= as_string) ≫= subject_of;
  p ← member "originalProblem" v ≫= as_string;
  r ← member "result" v ≫= to_analysis;
  match to_image (member "originalImage" v) with
  | Some img =>
      Some {| HistoryItem.id := i; HistoryItem.timestamp := t; HistoryItem.subject := s;
              HistoryItem.originalProblem := p; HistoryItem.originalImage := img;
              HistoryItem.result := r |}
  | None => None
  end.

Definition to_word (v : value) : option VocabularyItem :=
  w ← member "word" v ≫= as_string;
  p ← member "pronunciation" v ≫= as_string;
  d ← member "definition" v ≫= as_string;
  e ← member "example" v ≫= as_string;
  Some {| word := w; pronunciation := p; definition := d; example := e |}.

Definition to_vocabulary (v : value) : option VocabularyResponse :=
  t ← member "topic" v ≫= as_string;
  ws ← member "words" v ≫= as_list to_word;
  Some {| topic := t; words := ws |}.

(** [JSON.parse(text) as T]: text that is not JSON is a [SyntaxError].  A
    document of another shape has no value at the declared type; this
    browser refuses it, where the unchecked cast would hand it on. *)
Definition parse_as {T} (decode : value → option T) (text : string) : Completion T :=
  match parse text with
  | None => Throw "SyntaxError"
  | Some v =>
      match decode v with
      | Some x => Normal x
      | None => Throw "TypeError"
      end
  end.

#[export] Instance JSON_history : JSON (list HistoryItem.t) :=
  {| JSON_parse := parse_as (as_list to_item);
     JSON_stringify h := print (Arr (of_item <$> h)) |}.

#[export] Instance JSON_analysis : JSON AnalysisResponse :=
  {| JSON_parse := parse_as to_analysis;
     JSON_stringify r := print (of_analysis r) |}.

#[export] Instance JSON_vocabulary : JSON VocabularyResponse :=
  {| JSON_parse := parse_as to_vocabulary;
     JSON_stringify r := print (of_vocabulary r) |}.

(** A storage area of [quota] characters, keys and values counted together. *)
Record Area := {
  items : gmap string string;
  quota : nat
}.

Definition used (m : gmap string string) : nat :=
  map_fold (λ k v n, String.length k + String.length v + n) 0 m.

#[export] Instance Storage_Area : Storage Area :=
  {| getItem s k := Normal (items s !! k);
     setItem s k v :=
       let m := <[k := v]> (items s) in
       if decide (used m ≤ quota s)%nat then Normal {| items := m; quota := quota s |}
       else Throw "QuotaExceededError" |}.

End Browser.

(** ** Vocabulary of the properties *)

(** The specification's [remove(id)], following its words: delete the first
    record whose identifier matches, and nothing when there is none. *)
Fixpoint remove_first (id : string) (h : list HistoryItem.t) : list HistoryItem.t :=
  match h with
  | [] => []
  | item :: rest =>
      if decide (HistoryItem.id item = id) then rest else item :: remove_first id rest
  end.

(** A successful completion: the captured call, the result, the two clock readings. *)
Definition Completed : Type := AnalysisCall * AnalysisResponse * Z * Z.

Definition record_of (c : Completed) : HistoryItem.t :=
  let '(call, data, now1, now2) := c in newItem call data now1 now2.

Definition complete (st : AppState) (c : Completed) : AppState :=
  let '(call, data, now1, now2) := c in
  handleSubmit_resume call (Normal data) now1 now2 st.

Definition succeeded {A} (c : Completion A) : bool :=
  match c with
  | Normal _ => true
  | Throw _ => false
  end.

(** The clock readings a trace turns into identifiers, oldest first. *)
Fixpoint idClock (trace : list Action) : list Z :=
  match trace with
  | AnalysisSettles _ _ now1 _ :: rest => now1 :: idClock rest
  | _ :: rest => idClock rest
  | [] => []
  end.

(** The set [{0, ..., n-1}] of all card indices. *)
Definition allCards (n : nat) : gset nat := set_seq 0 n.

Section Vocabulary.
Context `{JSON_history : JSON (list HistoryItem.t)}.
Context `{JSON_analysis : JSON AnalysisResponse}.
Context `{JSON_vocabulary : JSON VocabularyResponse}.
Context {Store : Type} `{Storage_Store : Storage Store}.

(** The actions that change the history: a successful completion of a call
    in flight (append), a confirmed delete (remove), a confirmed clear. *)
Definition mutates (a : Action) (w : World Store) : bool :=
  match a with
  | AnalysisSettles k reply _ _ =>
      bool_decide (is_Some (analyzing w !! k)) && succeeded (analyzeProblem reply)
  | ClickHistoryDelete i confirmed =>
      confirmed && showing HISTORY w && bool_decide (is_Some (history (app w) !! i))
  | ClickClearHistory confirmed =>
      confirmed && showing HISTORY w && bool_decide (0 < length (history (app w)))
  | _ => false
  end.

(** Storage holds the serialisation of the list in memory. *)
Definition persisted (w : World Store) : Prop :=
  getItem (localStorage w) storageKey
  = Normal (Some (JSON_stringify (history (app w)))).

(** Actions after which an empty [result] cell is still empty: all but
    loading a history record and a successful completion. *)
Definition keeps_result_empty (a : Action) : bool :=
  match a with
  | ClickHistoryDetails _ => false
  | AnalysisSettles _ reply _ _ => negb (succeeded (analyzeProblem reply))
  | _ => true
  end.

(** A trace in which the Enter key is never pressed in the topic field
    while a vocabulary request is in flight. *)
Definition orderly (a : Action) (w : World Store) : bool :=
  match a with
  | KeyDownVocabTopic _ => negb (bool_decide (vocabStatus (app w) = LOADING))
  | _ => true
  end.

Fixpoint one_at_a_time (w : World Store) (trace : list Action) : Prop :=
  match trace with
  | [] => True
  | a :: rest => orderly a w = true ∧ one_at_a_time (step w a) rest
  end.

(** What such traces maintain: at most one vocabulary call is in flight;
    while it is, the session is [LOADING] with no result and nothing
    revealed; otherwise the revealed indices are indices of the result. *)
Definition vocab_consistent (w : World Store) : Prop :=
  match generating w with
  | [] =>
      vocabStatus (app w) ≠ LOADING
      ∧ ∀ v, vocabResult (app w) = Some v →
             revealedWords (app w) ⊆ allCards (length (words v))
  | [_] =>
      vocabStatus (app w) = LOADING
      ∧ vocabResult (app w) = None
      ∧ revealedWords (app w) = ∅
  | _ => False
  end.

End Vocabulary.

(** ** The rest of the code: the request, the views, the report component *)

(** *** [src/types.ts]: the labels of the subjects *)

Definition SUBJECT_LABELS (s : Subject) : string :=
  match s with
  | MATH => "数学"
  | PHYSICS => "物理"
  | CHEMISTRY => "化学"
  | BIOLOGY => "生物"
  | ENGLISH => "英语"
  end.

(** *** [src/services/gemini.ts]: what [analyzeProblem] sends *)

(** [s.split(sep)] with a separator of one character: the segments between
    its occurrences, in order; a string without it is the only segment. *)
Fixpoint split_chars (sep : ascii) (cs : list ascii) : list (list ascii) :=
  match cs with
  | [] => [[]]
  | c :: rest =>
      if decide (c = sep) then [] :: split_chars sep rest
      else
        match split_chars sep rest with
        | seg :: segs => (c :: seg) :: segs
        | [] => [[c]]
        end
  end.

Definition split (sep : ascii) (s : string) : list string :=
  String.string_of_list_ascii <$> split_chars sep (String.list_ascii_of_string s).

(** [imageBase64.split(",")[1] || imageBase64] *)
Definition cleanBase64 (imageBase64 : string) : string :=
  match split "," imageBase64 !! 1 with
  | Some segment => if truthy segment then segment else imageBase64
  | None => imageBase64
  end.

Definition promptText (textInput : string) (subject : Subject) : string :=
  let subjectName := SUBJECT_LABELS subject in
  "
    你是一名中国资深高中" +:+ subjectName +:+ "教师。
    请帮助学生分析这道" +:+ subjectName +:+ "错题。
    
    任务：
    1. 诊断错误：分析学生可能在哪里出错（思路、计算、语法等），语气要鼓励且专业。
    2. 核心考点：明确指出这道题考察的知识点。
    3. 正确解析：给出详细的步骤解析（如果是英语题，请进行语法拆解或篇章分析）。
    4. 举一反三：出一道考察相同知识点的变式题。

    题目内容：" +:+ textInput +:+ "
  ".

Inductive Part :=
| TextPart (text : string)
| InlineData (mimeType data : string).

#[export] Instance Part_eq_dec : EqDecision Part.
Proof. solve_decision. Defined.

(** The [parts] array at the call of [generateContent]. *)
Definition requestParts (textInput : string) (subject : Subject)
    (imageBase64 : option string) : list Part :=
  [TextPart (promptText textInput subject)] ++
  match imageBase64 with
  | Some image =>
      if truthy image then [InlineData "image/jpeg" (cleanBase64 image)] else []
  | None => []
  end.

(** The request of a call in flight: [handleSubmit] passes
    [selectedImage || undefined]. *)
Definition callParts (call : AnalysisCall) : list Part :=
  requestParts (call_inputText call) (call_subject call)
    (if truthy_opt (call_selectedImage call) then call_selectedImage call else None).

(** *** [src/App.tsx]: what the analysis tab shows below the input

    The three conditional blocks after the input section, in their order. *)
Inductive Panel :=
| ErrorMessage (msg : string)
| Report (data : AnalysisResponse)
| Intro.

Definition panels (st : AppState) : list Panel :=
  (if bool_decide (status st = ERROR)
   then match errorMsg st with
        | Some msg => if truthy msg then [ErrorMessage msg] else []
        | None => []
        end
   else [])
  ++ (if bool_decide (status st = SUCCESS)
      then match result st with
           | Some data => [Report data]
           | None => []
           end
      else [])
  ++ (if bool_decide (status st = IDLE) then [Intro] else []).

(** The label of the button above the cards: "hide all" ([true]) or
    "show all" ([false]). *)
Definition toggleAllHides (st : AppState) (v : VocabularyResponse) : bool :=
  bool_decide (size (revealedWords st) = length (words v)).

(** The text and the thumbnail of a record's card in the history tab. *)
Definition noTextPlaceholder : string := "（无文字描述，仅图片）".

Definition cardText (item : HistoryItem.t) : string :=
  if truthy (HistoryItem.originalProblem item) then HistoryItem.originalProblem item
  else noTextPlaceholder.

Definition cardThumbnail (item : HistoryItem.t) : option string :=
  if truthy_opt (HistoryItem.originalImage item) then HistoryItem.originalImage item
  else None.

(** *** [src/components/AnalysisResult.tsx]

    The component has one cell, [showAnswer], initially [false]; the App
    renders it only inside the analysis tab, when the status is [SUCCESS]
    and there is a result.  A component that stops being rendered loses its
    state; one that stays rendered keeps it. *)
Definition reportRendered (st : AppState) : bool :=
  bool_decide (activeTab st = ANALYZE)
  && bool_decide (status st = SUCCESS)
  && bool_decide (is_Some (result st)).

(** The numbered steps of the report: [idx + 1] beside each step. *)
Definition numberedSteps (data : AnalysisResponse) : list (nat * string) :=
  imap (λ idx step, (idx + 1, step)) (stepByStepSolution data).

Section Page.
Context `{JSON_history : JSON (list HistoryItem.t)}.
Context `{JSON_analysis : JSON AnalysisResponse}.
Context `{JSON_vocabulary : JSON VocabularyResponse}.
Context {Store : Type} `{Storage_Store : Storage Store}.

(** The App together with the report's cell: [None] while the report is
    not mounted. *)
Record Page := {
  world : World Store;
  showAnswer : option bool
}.

Definition reconcile (before : option bool) (st : AppState) : option bool :=
  if reportRendered st then Some (default false before) else None.

Inductive PageAction :=
| OnApp (a : Action)
| ClickShowAnswer.

Definition page_mount (s : Store) : Page :=
  let w := mount s in
  {| world := w; showAnswer := reconcile None (app w) |}.

Definition page_step (p : Page) (a : PageAction) : Page :=
  match a with
  | OnApp a =>
      let w := step (world p) a in
      {| world := w; showAnswer := reconcile (showAnswer p) (app w) |}
  | ClickShowAnswer =>
      {| world := world p; showAnswer := negb <$> showAnswer p |}
  end.

Definition page_run (p : Page) (trace : list PageAction) : Page :=
  foldl page_step p trace.

(** *** Vocabulary of the further properties *)

(** The cells of the two sessions. *)
Definition analysisCells (st : AppState) :=
  (subject st, inputText st, selectedImage st, status st, result st, errorMsg st).

Definition vocabularyCells (st : AppState) :=
  (vocabTopic st, vocabStatus st, vocabResult st, revealedWords st).

(** The actions of the vocabulary tab and its service, and those of the
    analysis tab and its service. *)
Definition onVocabulary (a : Action) : bool :=
  match a with
  | ChangeVocabTopic _ | KeyDownVocabTopic _ | ClickVocabSubmit
  | VocabularySettles _ _ | ClickCard _ | ClickToggleAll => true
  | _ => false
  end.

Definition onAnalysis (a : Action) : bool :=
  match a with
  | ClickSubject _ | ChangeInputText _ | FileRead _ | ClickRemoveImage
  | ClickSubmit | AnalysisSettles _ _ _ _ => true
  | _ => false
  end.

(** Edits of the inputs of the analysis tab. *)
Definition isEdit (a : Action) : bool :=
  match a with
  | ClickSubject _ | ChangeInputText _ | FileRead _ | ClickRemoveImage => true
  | _ => false
  end.

(** What every reachable state of the analysis session satisfies. *)
Definition analysis_consistent (st : AppState) : Prop :=
  match status st with
  | IDLE => result st = None ∧ errorMsg st = None
  | LOADING => result st = None ∧ errorMsg st = None
  | SUCCESS => is_Some (result st)
  | ERROR => errorMsg st = Some analysisFailedMsg
  end.

(** A trace in which no history record is opened while an analysis request
    is in flight. *)
Definition patient (a : Action) (w : World Store) : bool :=
  match a with
  | ClickHistoryDetails _ => negb (bool_decide (status (app w) = LOADING))
  | _ => true
  end.

Fixpoint one_request (w : World Store) (trace : list Action) : Prop :=
  match trace with
  | [] => True
  | a :: rest => patient a w = true ∧ one_request (step w a) rest
  end.

(** What such traces maintain: the calls in flight are one while [LOADING]
    and none otherwise, and a failed session holds no result. *)
Definition single_flight (w : World Store) : Prop :=
  match analyzing w with
  | [] => status (app w) ≠ LOADING
  | [_] => status (app w) = LOADING
  | _ => False
  end
  ∧ (status (app w) = ERROR → result (app w) = None).

(** A trace none of whose actions is an append, a confirmed remove or a
    confirmed clear. *)
Fixpoint quiet (w : World Store) (trace : list Action) : Prop :=
  match trace with
  | [] => True
  | a :: rest => mutates a w = false ∧ quiet (step w a) rest
  end.

(** A record, or a call, with something in it: a text or an image. *)
Definition hasContent (item : HistoryItem.t) : bool :=
  truthy (HistoryItem.originalProblem item) || truthy_opt (HistoryItem.originalImage item).

Definition callHasContent (call : AnalysisCall) : bool :=
  truthy (call_inputText call) || truthy_opt (call_selectedImage call).

End Page.

Arguments Page Store : clear implicits.

(** ** Scenarios in that browser *)

Module Scenario.
Import Browser.

Definition sample : AnalysisResponse :=
  {| mistakeDiagnosis := "sign lost when moving the term";
     coreConcept := "quadratic equations";
     stepByStepSolution := ["move every term to one side"; "factor"; "read off the roots"];
     practiceQuestion :=
       {| question := "solve x^2 = 4"; answer := "x = 2 or x = -2";
          explanation := "both signs are roots" |} |}.

Definition card (w : string) : VocabularyItem :=
  {| word := w; pronunciation := "/-/"; definition := "-"; example := "-" |}.

Definition six : VocabularyResponse :=
  {| topic := "travel";
     words := card <$> ["journey"; "luggage"; "passport"; "route"; "ticket"; "voyage"] |}.

Definition two : VocabularyResponse :=
  {| topic := "travel"; words := card <$> ["journey"; "luggage"] |}.

(** A reply of the service whose text is the JSON of a value. *)
Definition replying `{JSON T} (x : T) : Completion (option string) :=
  Normal (Some (JSON_stringify x)).

(** An empty storage area of the given quota, and one holding text under
    the history key. *)
Definition area (q : nat) : Area := {| items := ∅; quota := q |}.

Definition area_holding (text : string) : Area :=
  {| items := {[ storageKey := text ]}; quota := 5000 |}.

(** A question typed and submitted: one call in flight. *)
Definition asked : list Action := [ChangeInputText "why"; ClickSubmit].

(** Two completions in the same millisecond.  The first request succeeds;
    a second is submitted, and while it is in flight the stored record is
    opened from the history tab, which puts the session back to [SUCCESS]
    and enables the submit button; a third request is submitted, and both
    calls then settle at clock reading 2000 (the second reading of the
    later one, taken for its timestamp, is already 2001). *)
Definition same_millisecond : list Action :=
  asked ++
  [AnalysisSettles 0 (replying sample) 1000 1000;
   ClickSubmit;
   ClickTab HISTORY; ClickHistoryDetails 0;
   ClickSubmit;
   AnalysisSettles 0 (replying sample) 2000 2000;
   AnalysisSettles 0 (replying sample) 2000 2001].

Definition why : AnalysisCall :=
  {| call_inputText := "why"; call_subject := MATH; call_selectedImage := None |}.

(** A request answered, a second one submitted, the stored record opened
    while the second is in flight, and the second then failing. *)
Definition failure_after_replay : list Action :=
  asked ++
  [AnalysisSettles 0 (replying sample) 1000 1000;
   ClickSubmit;
   ClickTab HISTORY; ClickHistoryDetails 0;
   AnalysisSettles 0 (Throw "network down") 2000 2000].

(** A topic submitted with the button and again with the Enter key. *)
Definition topic_submitted : list Action :=
  [ClickTab VOCABULARY; ChangeVocabTopic "travel"; ClickVocabSubmit].

(** Both calls answered: six cards, two of them turned, then two cards. *)
Definition stale_reveal : list Action :=
  topic_submitted ++
  [KeyDownVocabTopic "Enter";
   VocabularySettles 0 (replying six);
   ClickCard 5; ClickCard 0;
   VocabularySettles 0 (replying two)].

(** The state holding the six-card result with nothing revealed. *)
Definition six_hidden : AppState :=
  setVocabResult (Some six) (initialState []).

End Scenario.

(** ** Further scenarios *)

Module Walkthrough.
Import Browser Scenario.

(** One request answered: a record in the history, the report on screen. *)
Definition answered : list Action :=
  asked ++ [AnalysisSettles 0 (replying sample) 1000 1001].

(** Then to the history tab, the record opened, the text changed, a new
    request submitted and failing: nothing of this is a mutation. *)
Definition browsing : list Action :=
  [ClickTab HISTORY; ClickHistoryDetails 0; ChangeInputText "and now";
   ClickSubmit; AnalysisSettles 0 (Throw "network down") 2000 2000].

(** A topic typed in the vocabulary tab. *)
Definition topic_typed : list Action :=
  [ClickTab VOCABULARY; ChangeVocabTopic "travel"].

(** The cards arrive, the last one is turned, then all are. *)
Definition cards_turned : list Action :=
  topic_submitted ++ [VocabularySettles 0 (replying six); ClickCard 5; ClickToggleAll].

(** A photograph as the browser hands it over. *)
Definition photo_header : string := "data:image/png;base64".
Definition photo_payload : string := "iVBORw0KGgoAAAANSUhEUgAAAAEAAAABCAYAAAAfFcSJ".
Definition photo : string := photo_header +:+ String "," photo_payload.

Definition photo_call : AnalysisCall :=
  {| call_inputText := ""; call_subject := PHYSICS; call_selectedImage := Some photo |}.

(** The report read, its answer revealed, and the history tab opened. *)
Definition answer_revealed : list (PageAction) :=
  (OnApp <$> answered) ++ [ClickShowAnswer; OnApp (ClickTab HISTORY)].

End Walkthrough.

(** ** Facts about the component, in any browser *)

Section Facts.
Context `{JSON_history : JSON (list HistoryItem.t)}.
Context `{JSON_analysis : JSON AnalysisResponse}.
Context `{JSON_vocabulary : JSON VocabularyResponse}.
Context {Store : Type} `{Storage_Store : Storage Store}.

Implicit Types (w : World Store) (st : AppState) (a : Action).

(** *** Rendering and the persistence effect *)

Lemma commit_app before w : app (commit before w) = app w.
Proof. unfold commit. by case_decide. Qed.

Lemma commit_same_ref before w :
  historyRef (app w) = historyRef before → commit before w = w.
Proof. intros Href. unfold commit. by rewrite decide_True. Qed.

Lemma commit_analyzing before w : analyzing (commit before w) = analyzing w.
Proof. unfold commit. by case_decide. Qed.

Lemma step_app w a : app (step w a) = app (handle a w).
Proof. apply commit_app. Qed.

Lemma step_analyzing w a : analyzing (step w a) = analyzing (handle a w).
Proof. apply commit_analyzing. Qed.

Lemma run_snoc w trace a : run w (trace ++ [a]) = step (run w trace) a.
Proof. unfold run. by rewrite foldl_app. Qed.

(** A settling analysis call, successful or not. *)
Lemma handle_settles w k reply now1 now2 call :
  analyzing w !! k = Some call →
  app (handle (AnalysisSettles k reply now1 now2) w)
  = handleSubmit_resume call (analyzeProblem reply) now1 now2 (app w).
Proof. intros Hk. simpl. by rewrite Hk. Qed.

(** *** The analysis service *)

Lemma analyzeProblem_outcome reply :
  analyzeProblem reply =
    match reply with
    | Throw e => Throw e
    | Normal None => Throw "No response from AI"
    | Normal (Some text) =>
        if truthy text then JSON_parse text else Throw "No response from AI"
    end.
Proof.
  unfold analyzeProblem, try_catch.
  destruct reply as [[text|]|e]; simpl; try done.
  destruct (truthy text); [|done]. by destruct (JSON_parse text).
Qed.

Lemma analyzeProblem_rejects_empty reply :
  reply = Normal None ∨ reply = Normal (Some "") →
  analyzeProblem reply = Throw "No response from AI".
Proof. intros [->| ->]; by rewrite analyzeProblem_outcome. Qed.

(** *** Appending *)

Lemma complete_history st c : history (complete st c) = record_of c :: history st.
Proof. by destruct c as [[[call data] now1] now2]. Qed.

Lemma step_settles_prepends w k reply now1 now2 call data :
  analyzing w !! k = Some call →
  analyzeProblem reply = Normal data →
  history (app (step w (AnalysisSettles k reply now1 now2)))
  = newItem call data now1 now2 :: history (app w).
Proof.
  intros Hk Hdata. rewrite step_app, (handle_settles _ _ _ _ _ call) by done.
  by rewrite Hdata.
Qed.

(** C1.  Every successful completion puts its record at the front of the
    history: after any sequence of completions the list is the records of
    the sequence, last completed first, followed by what was there before.
    In particular the record completed last is the first element, and
    nothing is merged or dropped: the list grows by one record each time. *)
Theorem history_newest_first (cs : list Completed) (st : AppState) :
  history (foldl complete st cs) = reverse (record_of <$> cs) ++ history st
  ∧ head (history (foldl complete st cs))
    = from_option (λ c, Some (record_of c)) (head (history st)) (last cs)
  ∧ length (history (foldl complete st cs)) = length cs + length (history st).
Proof.
  assert (history (foldl complete st cs) = reverse (record_of <$> cs) ++ history st) as Heq.
  { revert st. induction cs as [|c cs IH]; intros st; [done|].
    simpl. rewrite IH, complete_history, reverse_cons.
    by rewrite <-app_assoc. }
  split_and!; [done| |].
  - rewrite Heq. destruct cs as [|c cs _] using rev_ind; [done|].
    by rewrite fmap_app, reverse_app, last_snoc.
  - rewrite Heq, length_app, length_reverse, length_fmap. done.
Qed.

(** *** The guard of [handleSubmit] *)

(** C5.  With an empty question text and no image, [handleSubmit] returns at
    its guard: the world it leaves is the world it found (state cells, calls
    in flight and storage alike), and so does a click on the submit button. *)
Theorem handleSubmit_rejects_empty w :
  inputText (app w) = "" →
  selectedImage (app w) = None →
  handleSubmit w = w ∧ step w ClickSubmit = w.
Proof.
  intros Htext Himage.
  assert (handleSubmit w = w) as Hsame.
  { unfold handleSubmit. by rewrite Htext, Himage. }
  split; [done|]. unfold step.
  assert (handle ClickSubmit w = w) as ->.
  { simpl. by destruct (showing ANALYZE w && negb (submitDisabled (app w))). }
  by apply commit_same_ref.
Qed.

(** *** Loading *)

Lemma load_never_throws (s : Store) : ∃ h, load s = Normal h.
Proof.
  unfold load, try_catch.
  destruct (getItem s storageKey) as [[text|]|e]; simpl; eauto.
  destruct (truthy text); eauto.
  destruct (JSON_parse text); eauto.
Qed.

(** C7.  When the stored text cannot be deserialised, [load] returns
    normally with the empty list, and the component starts from it. *)
Theorem load_falls_back_to_empty (s : Store) (saved e : string) :
  getItem s storageKey = Normal (Some saved) →
  JSON_parse (T:=list HistoryItem.t) saved = Throw e →
  load s = Normal [] ∧ history (app (mount s)) = [].
Proof.
  intros Hsaved Hparse.
  assert (load s = Normal []) as Hload.
  { unfold load, try_catch. rewrite Hsaved. simpl.
    destruct (truthy saved); [|done]. by rewrite Hparse. }
  split; [done|]. simpl. unfold initialHistory. by rewrite Hload.
Qed.

(** *** Failure of an analysis request *)

(** C8.  When a call in flight settles in failure (the service threw, the
    response had no text, or the text did not parse), the session is in
    [ERROR] with the user-facing message, and neither the history in memory
    nor the storage has changed. *)
Theorem failed_analysis_leaves_history w k reply now1 now2 call e :
  analyzing w !! k = Some call →
  analyzeProblem reply = Throw e →
  let w' := step w (AnalysisSettles k reply now1 now2) in
  status (app w') = ERROR
  ∧ errorMsg (app w') = Some analysisFailedMsg
  ∧ history (app w') = history (app w)
  ∧ localStorage w' = localStorage w.
Proof.
  intros Hk Hfail w'.
  assert (app (handle (AnalysisSettles k reply now1 now2) w)
          = setErrorMsg (Some analysisFailedMsg) (setStatus ERROR (app w))) as Happ.
  { rewrite (handle_settles _ _ _ _ _ call) by done. by rewrite Hfail. }
  subst w'. rewrite !step_app, Happ. repeat split.
  unfold step. rewrite commit_same_ref; [|by rewrite Happ].
  simpl. by rewrite Hk.
Qed.

(** *** Write-through *)

Lemma handle_localStorage w a : localStorage (handle a w) = localStorage w.
Proof.
  destruct a; simpl; repeat case_match; try done.
  - unfold handleSubmit. by case_match.
  - unfold handleVocabSubmit. by case_match.
  - unfold handleVocabSubmit. by case_match.
Qed.

Lemma mutates_fresh_array w a :
  mutates a w = true → historyRef (app (handle a w)) = S (historyRef (app w)).
Proof.
  destruct a; simpl; try done.
  - rewrite andb_true_iff, bool_decide_eq_true. intros [[call Hk] Hok].
    rewrite Hk. simpl. by destruct (analyzeProblem reply).
  - rewrite !andb_true_iff, bool_decide_eq_true. intros [[-> ->] [item Hi]].
    by rewrite Hi.
  - rewrite andb_true_iff. intros [[-> ->]%andb_true_iff ->]. done.
Qed.

Lemma step_mutation w a :
  mutates a w = true →
  localStorage (step w a) = persistHistory (app (step w a)) (localStorage w).
Proof.
  intros Hmut. rewrite step_app. unfold step, commit.
  rewrite decide_False by (rewrite (mutates_fresh_array _ _ Hmut); lia).
  simpl. by rewrite handle_localStorage.
Qed.

(** Every other action leaves the history and the storage alone. *)
Lemma step_without_mutation w a :
  mutates a w = false →
  history (app (step w a)) = history (app w) ∧ localStorage (step w a) = localStorage w.
Proof.
  intros Hmut.
  assert (history (app (handle a w)) = history (app w)
          ∧ historyRef (app (handle a w)) = historyRef (app w)) as [Hsame Href].
  { destruct a; simpl in *; try done;
      try solve [ repeat case_match; simpl; try done;
                  first [ by (unfold handleSubmit, handleVocabSubmit; case_match)
                        | by destruct (generateVocabulary reply)
                        | by (unfold toggleWordReveal; case_match)
                        | by (unfold toggleAllWords; repeat case_match) ] ].
    - destruct (analyzing w !! k) as [call|] eqn:Hk; [|done].
      rewrite bool_decide_eq_true_2 in Hmut by eauto.
      by destruct (analyzeProblem reply).
    - destruct (history (app w) !! i) as [item|] eqn:Hi; [|done].
      rewrite bool_decide_eq_true_2, andb_true_r in Hmut by eauto.
      by destruct confirmed, (showing HISTORY w).
    - by destruct confirmed, (showing HISTORY w), (bool_decide _). }
  rewrite step_app. split; [done|].
  unfold step. rewrite commit_same_ref by done. apply handle_localStorage.
Qed.

(** C2, as amended.  After an append, a confirmed remove or a confirmed
    clear, the persistence effect has run once on the new list.  If its
    write returned, storage is what the write left and reads back as the
    serialisation of the list in memory; if the write threw, the failure is
    dropped and storage is what it was before the operation. *)
Theorem history_saved_unless_write_fails {Hspec : StorageSpec Store} w a :
  mutates a w = true →
  match setItem (localStorage w) storageKey (JSON_stringify (history (app (step w a)))) with
  | Normal s' => localStorage (step w a) = s' ∧ persisted (step w a)
  | Throw _ => localStorage (step w a) = localStorage w
  end.
Proof.
  intros Hmut. pose proof (step_mutation _ _ Hmut) as Hstore.
  unfold persistHistory in Hstore. unfold persisted.
  destruct (setItem _ _ _) as [s'|e] eqn:Hwrite; [|done].
  split; [done|]. rewrite Hstore. by eapply getItem_setItem.
Qed.

(** *** Removing *)

Lemma filter_other_ids_absent (id : string) (h : list HistoryItem.t) :
  id ∉ HistoryItem.id <$> h → filter (λ item, HistoryItem.id item ≠ id) h = h.
Proof.
  induction h as [|x h IH]; [done|].
  rewrite fmap_cons, not_elem_of_cons. intros [Hx Hh].
  rewrite filter_cons_True by done. by rewrite IH.
Qed.

Lemma filter_other_ids_gone (id : string) (h : list HistoryItem.t) :
  id ∉ HistoryItem.id <$> filter (λ item, HistoryItem.id item ≠ id) h.
Proof.
  rewrite list_elem_of_fmap. intros (x & -> & Hx).
  apply list_elem_of_filter in Hx as [Hne _]. done.
Qed.

Lemma filter_other_ids_first (id : string) (h : list HistoryItem.t) :
  NoDup (HistoryItem.id <$> h) →
  filter (λ item, HistoryItem.id item ≠ id) h = remove_first id h.
Proof.
  induction h as [|x h IH]; [done|].
  rewrite fmap_cons, NoDup_cons. intros [Hx Hh]. simpl.
  destruct (decide (HistoryItem.id x = id)) as [<-|Hne].
  - rewrite filter_cons_False by (intros Hne; by apply Hne).
    by apply filter_other_ids_absent.
  - rewrite filter_cons_True by done. by rewrite IH.
Qed.

(** C3, as amended.  A confirmed [remove(id)] deletes every record whose
    identifier matches and keeps the others in their order; it changes
    nothing when no record matches, so a second call changes nothing; and
    where the identifiers of the list are pairwise distinct it deletes
    exactly the first match.  A declined confirmation leaves the state. *)
Theorem remove_deletes_every_match (id : string) (st : AppState) :
  let h := history st in
  let h' := history (deleteHistoryItem true id st) in
  (∀ item, item ∈ h' ↔ item ∈ h ∧ HistoryItem.id item ≠ id)
  ∧ h' `sublist_of` h
  ∧ (id ∉ HistoryItem.id <$> h → h' = h)
  ∧ history (deleteHistoryItem true id (deleteHistoryItem true id st)) = h'
  ∧ (NoDup (HistoryItem.id <$> h) → h' = remove_first id h)
  ∧ deleteHistoryItem false id st = st.
Proof.
  simpl. split_and!.
  - intros item. rewrite list_elem_of_filter. tauto.
  - apply sublist_filter.
  - apply filter_other_ids_absent.
  - apply filter_other_ids_absent, filter_other_ids_gone.
  - apply filter_other_ids_first.
  - done.
Qed.

(** *** Identifiers *)

Lemma step_history w a :
  (∃ k reply now1 now2 call data,
      a = AnalysisSettles k reply now1 now2
      ∧ history (app (step w a)) = newItem call data now1 now2 :: history (app w))
  ∨ history (app (step w a)) `sublist_of` history (app w).
Proof.
  rewrite step_app.
  destruct a; simpl; repeat case_match; simpl; try (by right);
    try (right; unfold handleSubmit, handleVocabSubmit; by case_match).
  - destruct (analyzeProblem reply) as [data|e]; simpl; [left; eauto 10|by right].
  - right. by destruct (generateVocabulary reply).
  - right. unfold toggleWordReveal. by case_match.
  - right. unfold toggleAllWords. by repeat case_match.
  - right. unfold deleteHistoryItem. case_match; [|done]. apply sublist_filter.
  - right. unfold clearHistory. case_match; [|done]. apply sublist_nil_l.
Qed.

Lemma run_ids_distinct w trace :
  NoDup (HistoryItem.id <$> history (app w)) →
  NoDup (idClock trace) →
  (∀ t, t ∈ idClock trace → toString t ∉ HistoryItem.id <$> history (app w)) →
  NoDup (HistoryItem.id <$> history (app (run w trace))).
Proof.
  revert w. induction trace as [|a trace IH]; intros w Hids Hclock Hfresh; [done|].
  change (run w (a :: trace)) with (run (step w a) trace).
  destruct (step_history w a) as [(k & reply & now1 & now2 & call & data & -> & Hnew)|Hsub].
  - simpl in Hclock, Hfresh. apply NoDup_cons in Hclock as [Hnow Hclock].
    apply IH; [|done|]; rewrite Hnew, fmap_cons.
    + apply NoDup_cons. split; [|done]. apply Hfresh. left.
    + intros t Ht. apply not_elem_of_cons. split.
      * simpl. intros Heq. apply (inj pretty) in Heq. by subst.
      * apply Hfresh. by right.
  - assert (HistoryItem.id <$> history (app (step w a))
            `sublist_of` HistoryItem.id <$> history (app w)) as Hsub'.
    { by apply fmap_sublist. }
    assert (∀ t, t ∈ idClock trace → t ∈ idClock (a :: trace)) as Hin.
    { intros t Ht. destruct a; simpl; try done. by right. }
    apply IH.
    + by eapply sublist_NoDup.
    + destruct a; simpl in Hclock; try done. by apply NoDup_cons in Hclock as [_ ?].
    + intros t Ht Hid. apply (Hfresh t (Hin t Ht)).
      by eapply elem_of_sublist.
Qed.

(** C4, as amended.  The identifier of a created record is the decimal
    numeral of the clock reading taken at its completion.  In a run of the
    component the identifiers in the history stay pairwise distinct provided
    the readings taken for identifiers are pairwise distinct and none of
    them is the identifier of a record loaded at startup (whose identifiers
    are themselves distinct). *)
Theorem ids_distinct_while_clock_distinct (s : Store) (trace : list Action) :
  NoDup (HistoryItem.id <$> initialHistory s) →
  NoDup (idClock trace) →
  (∀ t, t ∈ idClock trace → toString t ∉ HistoryItem.id <$> initialHistory s) →
  NoDup (HistoryItem.id <$> history (app (run (mount s) trace)))
  ∧ ∀ call data now1 now2,
      HistoryItem.id (newItem call data now1 now2) = toString now1.
Proof.
  intros Hids Hclock Hfresh. split; [|done].
  by apply run_ids_distinct.
Qed.

(** *** The reveal-set *)

Lemma all_indices {A} (l : list A) :
  list_to_set (imap (λ i _, i) l) = allCards (length l).
Proof.
  unfold allCards. rewrite (imap_seq_0 l (λ i, i)), list_fmap_id.
  apply list_to_set_seq.
Qed.

(** What the code tests is the size of the set, not its members. *)
Lemma toggleAllWords_by_size st v :
  vocabResult st = Some v →
  toggleAllWords st =
    setRevealedWords
      (if decide (size (revealedWords st) = length (words v)) then ∅
       else allCards (length (words v))) st.
Proof.
  intros Hv. unfold toggleAllWords. rewrite Hv.
  case_decide; [done|]. by rewrite all_indices.
Qed.

Lemma full_iff_size (X : gset nat) (n : nat) :
  X ⊆ allCards n → size X = n ↔ X = allCards n.
Proof.
  intros Hsub. split.
  - intros Hsize. apply set_subseteq_size_eq; [done|].
    unfold allCards. rewrite size_set_seq. lia.
  - intros ->. apply size_set_seq.
Qed.

(** C9, as amended.  For a vocabulary result of [n] entries and a
    reveal-set whose indices are all below [n], [toggleAll] empties the set
    when it is the full set of indices and makes it the full set otherwise;
    no other cell changes.  Without a result it does nothing. *)
Theorem toggleAll_all_or_nothing st v :
  vocabResult st = Some v →
  revealedWords st ⊆ allCards (length (words v)) →
  toggleAllWords st =
    setRevealedWords
      (if decide (revealedWords st = allCards (length (words v))) then ∅
       else allCards (length (words v))) st.
Proof.
  intros Hv Hsub. rewrite (toggleAllWords_by_size _ v) by done.
  pose proof (full_iff_size _ _ Hsub) as Hfull.
  repeat case_decide; try done; exfalso; tauto.
Qed.

(** The condition on the reveal-set holds in every state reached without
    starting a vocabulary request while another is in flight. *)
Lemma step_generating w a : generating (step w a) = generating (handle a w).
Proof. unfold step, commit. by case_decide. Qed.

Lemma vocab_consistent_frame w w' :
  generating w' = generating w →
  vocabStatus (app w') = vocabStatus (app w) →
  vocabResult (app w') = vocabResult (app w) →
  revealedWords (app w') = revealedWords (app w) →
  vocab_consistent w → vocab_consistent w'.
Proof. unfold vocab_consistent. by intros -> -> -> ->. Qed.

Lemma step_vocab_consistent w a :
  orderly a w = true → vocab_consistent w → vocab_consistent (step w a).
Proof.
  intros Horderly Hinv.
  assert (vocab_consistent (handle a w)) as Hhandle; last first.
  { revert Hhandle. apply vocab_consistent_frame;
      by rewrite ?step_generating, ?step_app. }
  destruct a;
    try solve [ revert Hinv; apply vocab_consistent_frame; simpl;
                repeat case_match; simpl; try done;
                first [ by (unfold handleSubmit; case_match)
                      | by destruct (analyzeProblem reply)
                      | by (unfold deleteHistoryItem; case_match)
                      | by (unfold clearHistory; case_match) ] ];
    simpl in *.
  - (* Enter key, no request in flight *)
    apply negb_true_iff, bool_decide_eq_false in Horderly.
    destruct (showing VOCABULARY w && bool_decide (key = "Enter")); [|done].
    unfold handleVocabSubmit. destruct (truthy (vocabTopic (app w))); [|done].
    unfold vocab_consistent in *. simpl.
    destruct (generating w) as [|t [|??]]; simpl; [done|tauto|done].
  - (* submit button, enabled only when no request is in flight *)
    unfold vocabSubmitDisabled.
    destruct (showing VOCABULARY w); [|done]. simpl.
    case_bool_decide as Hloading; [done|]. simpl.
    unfold handleVocabSubmit. destruct (truthy (vocabTopic (app w))); [|done].
    unfold vocab_consistent in *. simpl.
    destruct (generating w) as [|t [|??]]; simpl; [done|tauto|done].
  - (* the call in flight settles *)
    destruct (generating w !! k) as [t|] eqn:Hk; [|done].
    unfold vocab_consistent in *. simpl.
    destruct (generating w) as [|t' [|??]]; [done| |done].
    destruct Hinv as (Hloading & Hnone & Hempty).
    destruct k as [|k]; [|done]. simpl.
    destruct (generateVocabulary reply) as [data|e]; simpl.
    + rewrite Hempty. split; [done|]. intros v _. apply empty_subseteq.
    + by rewrite Hnone.
  - (* a card is turned *)
    destruct (vocabResult (app w)) as [v|] eqn:Hv; [|done].
    destruct (showing VOCABULARY w); [|done]. simpl.
    case_bool_decide as Hidx; [|done]. simpl.
    unfold vocab_consistent in *. simpl.
    destruct (generating w) as [|t [|??]]; [|destruct Hinv as (_ & ? & _); congruence|done].
    destruct Hinv as [Hloading Hsub]. specialize (Hsub v Hv).
    assert (idx ∈ allCards (length (words v))) by (apply elem_of_set_seq; lia).
    unfold toggleWordReveal. case_decide; simpl; rewrite Hv;
      (split; [done|]); intros ? [= <-] x.
    + intros [Hx _]%elem_of_difference. by apply Hsub.
    + intros [->%elem_of_singleton|Hx]%elem_of_union; [done|by apply Hsub].
  - (* all cards are turned *)
    destruct (showing VOCABULARY w); [|done]. simpl.
    case_bool_decide as Hsome; [|done]. simpl.
    destruct (vocabResult (app w)) as [v|] eqn:Hv; [|by destruct Hsome].
    unfold vocab_consistent in *. simpl.
    rewrite (toggleAllWords_by_size _ v) by done.
    destruct (generating w) as [|t [|??]]; [|destruct Hinv as (_ & ? & _); congruence|done].
    destruct Hinv as [Hloading Hsub]. simpl. rewrite Hv.
    split; [done|]. intros ? [= <-]. by case_decide.
Qed.

Lemma reveal_set_within_result w trace :
  vocab_consistent w → one_at_a_time w trace → vocab_consistent (run w trace).
Proof.
  revert w. induction trace as [|a trace IH]; intros w Hinv Htrace; [done|].
  destruct Htrace as [Ha Htrace].
  change (run w (a :: trace)) with (run (step w a) trace).
  apply IH; [|done]. by apply step_vocab_consistent.
Qed.

Lemma mount_vocab_consistent (s : Store) : vocab_consistent (mount s).
Proof. split; [done|]. intros v [=]. Qed.

Lemma reveal_set_in_range (s : Store) trace v :
  one_at_a_time (mount s) trace →
  vocabResult (app (run (mount s) trace)) = Some v →
  revealedWords (app (run (mount s) trace)) ⊆ allCards (length (words v)).
Proof.
  intros Htrace Hv.
  pose proof (reveal_set_within_result _ _ (mount_vocab_consistent s) Htrace) as Hinv.
  unfold vocab_consistent in Hinv.
  destruct (generating (run (mount s) trace)) as [|t [|??]]; [|
    destruct Hinv as (_ & ? & _); congruence|done].
  destruct Hinv as [_ Hsub]. by apply Hsub.
Qed.

Lemma toggleAllWords_without_result st :
  vocabResult st = None → toggleAllWords st = st.
Proof. intros Hv. unfold toggleAllWords. by rewrite Hv. Qed.

(** *** The submit buttons while a request is in flight *)

Lemma submit_button_disabled_while_loading w :
  status (app w) = LOADING → step w ClickSubmit = w.
Proof.
  intros Hloading. unfold step.
  assert (handle ClickSubmit w = w) as ->.
  { simpl. unfold submitDisabled. rewrite Hloading. simpl.
    by rewrite andb_false_r. }
  by apply commit_same_ref.
Qed.

Lemma vocab_button_disabled_while_loading w :
  vocabStatus (app w) = LOADING → step w ClickVocabSubmit = w.
Proof.
  intros Hloading. unfold step.
  assert (handle ClickVocabSubmit w = w) as ->.
  { simpl. unfold vocabSubmitDisabled. rewrite Hloading. simpl.
    by rewrite andb_false_r. }
  by apply commit_same_ref.
Qed.

(** The Enter key of the topic field runs [handleVocabSubmit] whatever the
    status: with a topic typed, one more call is in flight. *)
Lemma enter_key_submits_while_loading w :
  activeTab (app w) = VOCABULARY →
  truthy (vocabTopic (app w)) = true →
  generating (step w (KeyDownVocabTopic "Enter")) = generating w ++ [vocabTopic (app w)].
Proof.
  intros Htab Htopic. unfold step.
  assert (handle (KeyDownVocabTopic "Enter") w = handleVocabSubmit w) as ->.
  { simpl. unfold showing. by rewrite Htab. }
  unfold handleVocabSubmit. rewrite Htopic. simpl.
  unfold commit. by case_decide.
Qed.

(** *** What an accepted submission clears *)

Lemma handleSubmit_accepted w :
  truthy (inputText (app w)) || truthy_opt (selectedImage (app w)) = true →
  app (handleSubmit w) = setErrorMsg None (setResult None (setStatus LOADING (app w))).
Proof.
  intros Hinput. unfold handleSubmit.
  destruct (truthy (inputText (app w))), (truthy_opt (selectedImage (app w))); done.
Qed.

Lemma step_keeps_result_empty w a :
  keeps_result_empty a = true →
  result (app w) = None → result (app (step w a)) = None.
Proof.
  intros Hkeeps Hnone. rewrite step_app.
  destruct a; simpl in *; try done; repeat case_match; simpl; try done.
  - unfold handleSubmit. by case_match.
  - by destruct (analyzeProblem reply).
  - unfold handleVocabSubmit. by case_match.
  - unfold handleVocabSubmit. by case_match.
  - by destruct (generateVocabulary reply).
  - unfold toggleWordReveal. by case_match.
  - unfold toggleAllWords. by repeat case_match.
  - unfold deleteHistoryItem. by case_match.
  - unfold clearHistory. by case_match.
Qed.

Lemma run_keeps_result_empty w trace :
  forallb keeps_result_empty trace = true →
  result (app w) = None → result (app (run w trace)) = None.
Proof.
  revert w. induction trace as [|a trace IH]; intros w Hkeeps Hnone; [done|].
  simpl in Hkeeps. apply andb_true_iff in Hkeeps as [Ha Htrace].
  change (run w (a :: trace)) with (run (step w a) trace).
  apply IH; [done|]. by apply step_keeps_result_empty.
Qed.

(** C10, as amended.  An accepted submission enters [LOADING] with the
    result and the error message cleared.  As long as no history record is
    loaded and no analysis call completes successfully, the result stays
    empty; a call in flight that then fails leaves the session in [ERROR]
    with no result. *)
Theorem accepted_submit_clears_result w trace :
  truthy (inputText (app w)) || truthy_opt (selectedImage (app w)) = true →
  forallb keeps_result_empty trace = true →
  let w1 := handleSubmit w in
  status (app w1) = LOADING ∧ result (app w1) = None ∧ errorMsg (app w1) = None
  ∧ result (app (run w1 trace)) = None
  ∧ ∀ k reply now1 now2 e,
      is_Some (analyzing (run w1 trace) !! k) →
      analyzeProblem reply = Throw e →
      let w2 := step (run w1 trace) (AnalysisSettles k reply now1 now2) in
      status (app w2) = ERROR ∧ result (app w2) = None.
Proof.
  intros Hinput Hkeeps w1. subst w1.
  assert (result (app (run (handleSubmit w) trace)) = None) as Hnone.
  { apply run_keeps_result_empty; [done|]. by rewrite handleSubmit_accepted. }
  rewrite handleSubmit_accepted by done. split_and!; try done.
  intros k reply now1 now2 e [call Hk] Hfail w2. subst w2.
  rewrite step_app, (handle_settles _ _ _ _ _ call) by done.
  by rewrite Hfail.
Qed.

End Facts.

(** ** Further facts about the component *)

Set Warnings "-clear-no-such-hyp".

Lemma union_difference_singleton (X : gset nat) (i : nat) :
  i ∈ X → {[ i ]} ∪ X ∖ {[ i ]} = X.
Proof.
  intros Hin. apply set_eq. intros j.
  rewrite elem_of_union, elem_of_difference, elem_of_singleton.
  destruct (decide (j = i)) as [->|]; naive_solver.
Qed.

Lemma difference_union_singleton (X : gset nat) (i : nat) :
  i ∉ X → ({[ i ]} ∪ X) ∖ {[ i ]} = X.
Proof.
  intros Hout. apply set_eq. intros j.
  rewrite elem_of_difference, elem_of_union, elem_of_singleton.
  destruct (decide (j = i)) as [->|]; naive_solver.
Qed.

Section MoreFacts.
Context `{JSON_history : JSON (list HistoryItem.t)}.
Context `{JSON_analysis : JSON AnalysisResponse}.
Context `{JSON_vocabulary : JSON VocabularyResponse}.
Context {Store : Type} `{Storage_Store : Storage Store}.

Implicit Types (w : World Store) (st : AppState) (a : Action).

(** *** Turning one card *)

Lemma setRevealedWords_same st : setRevealedWords (revealedWords st) st = st.
Proof. by destruct st. Qed.

Lemma setRevealedWords_twice X Y st :
  setRevealedWords X (setRevealedWords Y st) = setRevealedWords X st.
Proof. done. Qed.

(** X1.  [toggleWordReveal] flips the membership of its index and of no
    other, and touches no other cell: turning the same card twice gives
    back the state it started from. *)
Theorem toggleWordReveal_flips_one (index : nat) st :
  (∀ i, i ∈ revealedWords (toggleWordReveal index st)
        ↔ if decide (i = index) then i ∉ revealedWords st else i ∈ revealedWords st)
  ∧ toggleWordReveal index (toggleWordReveal index st) = st.
Proof.
  split.
  - intros i. unfold toggleWordReveal.
    destruct (decide (index ∈ revealedWords st)) as [Hin|Hout]; simpl;
      rewrite ?elem_of_difference, ?elem_of_union, !elem_of_singleton;
      destruct (decide (i = index)) as [->|Hne]; naive_solver.
  - unfold toggleWordReveal.
    destruct (decide (index ∈ revealedWords st)) as [Hin|Hout]; simpl.
    + rewrite decide_False
        by (rewrite elem_of_difference, elem_of_singleton; naive_solver).
      rewrite setRevealedWords_twice, union_difference_singleton by done.
      apply setRevealedWords_same.
    + rewrite decide_True
        by (rewrite elem_of_union, elem_of_singleton; naive_solver).
      rewrite setRevealedWords_twice, difference_union_singleton by done.
      apply setRevealedWords_same.
Qed.

(** *** The button above the cards *)

(** X2.  The button above the cards announces what a click does: while it
    reads "hide all" a click reveals nothing any more, while it reads "show
    all" a click reveals every card.  After a click it reads "hide all" if
    there is no card or the click revealed them, so with at least one card
    every click changes the label. *)
Theorem toggleAll_label_tells st v :
  vocabResult st = Some v →
  let n := length (words v) in
  revealedWords (toggleAllWords st)
  = (if toggleAllHides st v then ∅ else allCards n)
  ∧ toggleAllHides (toggleAllWords st) v
    = (if toggleAllHides st v then bool_decide (n = 0) else true).
Proof.
  intros Hv n. rewrite (toggleAllWords_by_size st v Hv). unfold toggleAllHides.
  fold n. destruct (decide (size (revealedWords st) = n)) as [Hfull|Hpart];
    cbn [revealedWords setRevealedWords].
  - rewrite (bool_decide_eq_true_2 _ Hfull). split; [done|].
    rewrite size_empty. apply bool_decide_ext. subst n. lia.
  - rewrite (bool_decide_eq_false_2 _ Hpart). split; [done|].
    apply bool_decide_eq_true_2. apply size_set_seq.
Qed.

(** *** The guard of [handleVocabSubmit] *)

(** X3.  With an empty topic neither the submit button nor any key in the
    topic field starts a request or changes anything. *)
Theorem handleVocabSubmit_rejects_empty w :
  vocabTopic (app w) = "" →
  handleVocabSubmit w = w
  ∧ step w ClickVocabSubmit = w
  ∧ ∀ key, step w (KeyDownVocabTopic key) = w.
Proof.
  intros Htopic.
  assert (handleVocabSubmit w = w) as Hsame.
  { unfold handleVocabSubmit. by rewrite Htopic. }
  split_and!; [done| |intros key]; unfold step.
  - assert (handle ClickVocabSubmit w = w) as ->.
    { simpl. by destruct (showing VOCABULARY w && negb (vocabSubmitDisabled (app w))). }
    by apply commit_same_ref.
  - assert (handle (KeyDownVocabTopic key) w = w) as ->.
    { simpl. by destruct (showing VOCABULARY w && bool_decide (key = "Enter")). }
    by apply commit_same_ref.
Qed.

(** *** The two sessions do not touch each other *)

Lemma handle_generating_analysis w a :
  onAnalysis a = true → generating (handle a w) = generating w.
Proof.
  destruct a; simpl; try done; intros _; repeat case_match; try done.
  unfold handleSubmit. by case_match.
Qed.

Lemma handle_analyzing_vocabulary w a :
  onVocabulary a = true → analyzing (handle a w) = analyzing w.
Proof.
  destruct a; simpl; try done; intros _; repeat case_match; try done;
    unfold handleVocabSubmit; by case_match.
Qed.

(** X4.  An action of the vocabulary tab or of its service leaves the cells
    of the analysis session, the analysis calls in flight, the history and
    the storage as they are; an action of the analysis tab or of its service
    leaves the cells of the vocabulary session and its calls in flight. *)
Theorem sessions_independent w a :
  (onVocabulary a = true →
     analysisCells (app (step w a)) = analysisCells (app w)
     ∧ analyzing (step w a) = analyzing w
     ∧ history (app (step w a)) = history (app w)
     ∧ localStorage (step w a) = localStorage w)
  ∧ (onAnalysis a = true →
       vocabularyCells (app (step w a)) = vocabularyCells (app w)
       ∧ generating (step w a) = generating w).
Proof.
  split; intros Ha.
  - assert (mutates a w = false) as Hmut by (by destruct a).
    destruct (step_without_mutation w a Hmut) as [Hhistory Hstore].
    split_and!; [|by rewrite step_analyzing, handle_analyzing_vocabulary|done..].
    rewrite step_app.
    destruct a; simpl in *; try done; repeat case_match; simpl; try done;
      first [ by (unfold handleVocabSubmit; case_match)
            | by destruct (generateVocabulary reply)
            | by (unfold toggleWordReveal; case_match)
            | by (unfold toggleAllWords; repeat case_match) ].
  - split; [|by rewrite step_generating, handle_generating_analysis].
    rewrite step_app.
    destruct a; simpl in *; try done; repeat case_match; simpl; try done;
      first [ by (unfold handleSubmit; case_match)
            | by destruct (analyzeProblem reply) ].
Qed.

(** *** Status, result and message go together *)

Lemma analysis_consistent_frame st st' :
  status st' = status st → result st' = result st → errorMsg st' = errorMsg st →
  analysis_consistent st → analysis_consistent st'.
Proof. unfold analysis_consistent. by intros -> -> ->. Qed.

Lemma step_analysis_consistent w a :
  analysis_consistent (app w) → analysis_consistent (app (step w a)).
Proof.
  intros Hinv. rewrite step_app.
  destruct a;
    try solve [ revert Hinv; apply analysis_consistent_frame; simpl;
                repeat case_match; simpl; try done;
                first [ by (unfold handleVocabSubmit; case_match)
                      | by destruct (generateVocabulary reply)
                      | by (unfold toggleWordReveal; case_match)
                      | by (unfold toggleAllWords; repeat case_match)
                      | by (unfold deleteHistoryItem; case_match)
                      | by (unfold clearHistory; case_match) ] ];
    simpl.
  - destruct (showing ANALYZE w && negb (submitDisabled (app w))); [|done].
    unfold handleSubmit. case_match; [done|]. by split.
  - destruct (analyzing w !! k) as [call|]; [|done]. simpl.
    destruct (analyzeProblem reply); unfold analysis_consistent; simpl; [by eexists|done].
  - destruct (history (app w) !! i) as [item|]; [|done].
    destruct (showing HISTORY w); [|done].
    unfold analysis_consistent. simpl. by eexists.
Qed.

Lemma run_analysis_consistent w trace :
  analysis_consistent (app w) → analysis_consistent (app (run w trace)).
Proof.
  revert w. induction trace as [|a trace IH]; intros w Hinv; [done|].
  change (run w (a :: trace)) with (run (step w a) trace).
  by apply IH, step_analysis_consistent.
Qed.


(** X6.  The session is [IDLE] only before its first request: no action
    brings a session that has left [IDLE] back to it. *)
Theorem idle_only_at_start w (trace : list Action) :
  status (app w) ≠ IDLE → status (app (run w trace)) ≠ IDLE.
Proof.
  revert w. induction trace as [|a trace IH]; intros w Hidle; [done|].
  change (run w (a :: trace)) with (run (step w a) trace).
  apply IH. rewrite step_app.
  destruct a; simpl; repeat case_match; simpl; try done;
    first [ by (unfold handleSubmit; case_match)
          | by destruct (analyzeProblem reply)
          | by (unfold handleVocabSubmit; case_match)
          | by destruct (generateVocabulary reply)
          | by (unfold toggleWordReveal; case_match)
          | by (unfold toggleAllWords; repeat case_match)
          | by (unfold deleteHistoryItem; case_match)
          | by (unfold clearHistory; case_match) ].
Qed.

(** *** One analysis request at a time *)

Lemma single_flight_frame w w' :
  analyzing w' = analyzing w → status (app w') = status (app w) →
  result (app w') = result (app w) →
  single_flight w → single_flight w'.
Proof. unfold single_flight. by intros -> -> ->. Qed.

Lemma step_single_flight w a :
  patient a w = true → analysis_consistent (app w) →
  single_flight w → single_flight (step w a).
Proof.
  intros Hpatient Hcons Hinv.
  assert (single_flight (handle a w)) as Hhandle; last first.
  { revert Hhandle. apply single_flight_frame;
      by rewrite ?step_analyzing, ?step_app. }
  destruct a;
    try solve [ revert Hinv; apply single_flight_frame; simpl;
                repeat case_match; simpl; try done;
                first [ by (unfold handleVocabSubmit; case_match)
                      | by destruct (generateVocabulary reply)
                      | by (unfold toggleWordReveal; case_match)
                      | by (unfold toggleAllWords; repeat case_match)
                      | by (unfold deleteHistoryItem; case_match)
                      | by (unfold clearHistory; case_match) ] ];
    simpl in *.
  - (* submit button, enabled only when no request is in flight *)
    unfold submitDisabled.
    destruct (showing ANALYZE w); [|done]. simpl.
    case_bool_decide as Hloading; [done|]. simpl.
    destruct (negb _ && negb _) eqn:Hempty; [done|]. simpl.
    unfold handleSubmit. rewrite Hempty.
    unfold single_flight in *. simpl. destruct Hinv as [Hflight _].
    destruct (analyzing w) as [|c [|??]]; simpl; [done|done|done].
  - (* the call in flight settles *)
    destruct (analyzing w !! k) as [call|] eqn:Hk; [|done].
    unfold single_flight in *. simpl. destruct Hinv as [Hflight _].
    destruct (analyzing w) as [|c [|??]]; [done| |done].
    destruct k as [|k]; [|done]. simpl.
    unfold analysis_consistent in Hcons. rewrite Hflight in Hcons.
    destruct (analyzeProblem reply); simpl; [done|].
    split; [done|]. intros _. apply Hcons.
  - (* a record is opened, no request being in flight *)
    apply negb_true_iff, bool_decide_eq_false in Hpatient.
    destruct (history (app w) !! i) as [item|]; [|done].
    destruct (showing HISTORY w); [|done].
    unfold single_flight in *. simpl. destruct Hinv as [Hflight _].
    destruct (analyzing w) as [|c [|??]]; [done|done|done].
Qed.

Lemma run_single_flight w trace :
  analysis_consistent (app w) → single_flight w →
  one_request w trace → single_flight (run w trace).
Proof.
  revert w. induction trace as [|a trace IH]; intros w Hcons Hinv Htrace; [done|].
  destruct Htrace as [Ha Htrace].
  change (run w (a :: trace)) with (run (step w a) trace).
  apply IH; [by apply step_analysis_consistent|by apply step_single_flight|done].
Qed.

(** X7.  As long as no history record is opened while an analysis request
    is in flight, at most one analysis call is in flight, there is one
    exactly while the status is [LOADING], and a session in [ERROR] holds
    no result. *)
Theorem one_analysis_request_at_a_time (s : Store) (trace : list Action) :
  one_request (mount s) trace →
  let w := run (mount s) trace in
  (length (analyzing w) ≤ 1)%nat
  ∧ (analyzing w ≠ [] ↔ status (app w) = LOADING)
  ∧ (status (app w) = ERROR → result (app w) = None).
Proof.
  intros Htrace w.
  assert (single_flight w) as [Hflight Herror].
  { apply run_single_flight; [by split|by split|done]. }
  destruct (analyzing w) as [|c [|??]]; simpl in *; [| |done].
  - split_and!; [lia| |done]. split; [done|]. intros Hloading. by destruct Hflight.
  - split_and!; [lia| |done]. by split.
Qed.

(** *** What a request remembers *)

Lemma step_edit w a :
  isEdit a = true →
  analyzing (step w a) = analyzing w ∧ history (app (step w a)) = history (app w).
Proof.
  intros Ha. rewrite step_analyzing, step_app.
  destruct a; simpl in *; try done; by repeat case_match.
Qed.

Lemma run_edits w edits :
  forallb isEdit edits = true →
  analyzing (run w edits) = analyzing w ∧ history (app (run w edits)) = history (app w).
Proof.
  revert w. induction edits as [|a edits IH]; intros w Hedits; [done|].
  simpl in Hedits. apply andb_true_iff in Hedits as [Ha Hedits].
  change (run w (a :: edits)) with (run (step w a) edits).
  destruct (IH (step w a) Hedits) as [-> ->]. by apply step_edit.
Qed.

Lemma step_submit_enabled w :
  showing ANALYZE w = true → submitDisabled (app w) = false →
  analyzing (step w ClickSubmit)
  = analyzing w ++ [ {| call_inputText := inputText (app w);
                        call_subject := subject (app w);
                        call_selectedImage := selectedImage (app w) |} ]
  ∧ history (app (step w ClickSubmit)) = history (app w)
  ∧ status (app (step w ClickSubmit)) = LOADING.
Proof.
  intros Htab Henabled. rewrite step_analyzing, step_app. simpl.
  rewrite Htab, Henabled. simpl.
  unfold submitDisabled in Henabled. apply orb_false_iff in Henabled as [_ Hguard].
  unfold handleSubmit. by rewrite Hguard.
Qed.

(** X8.  A click on the enabled submit button puts one call in flight that
    carries the text, the subject and the image of that moment.  Whatever
    the user edits in the inputs while it is in flight, the record its
    successful completion creates holds the inputs as they were submitted,
    and it is put in front of the unchanged history. *)
Theorem record_holds_submitted_inputs w (edits : list Action)
    (reply : Completion (option string)) (now1 now2 : Z) (data : AnalysisResponse) :
  showing ANALYZE w = true →
  submitDisabled (app w) = false →
  forallb isEdit edits = true →
  analyzeProblem reply = Normal data →
  let w1 := run (step w ClickSubmit) edits in
  let w2 := step w1 (AnalysisSettles (length (analyzing w)) reply now1 now2) in
  history (app w2)
  = {| HistoryItem.id := toString now1;
       HistoryItem.timestamp := now2;
       HistoryItem.subject := subject (app w);
       HistoryItem.originalProblem := inputText (app w);
       HistoryItem.originalImage := selectedImage (app w);
       HistoryItem.result := data |} :: history (app w).
Proof.
  intros Htab Henabled Hedits Hdata w1 w2.
  destruct (step_submit_enabled w Htab Henabled) as (Hcalls & Hhistory & _).
  destruct (run_edits (step w ClickSubmit) edits Hedits) as [Hcalls1 Hhistory1].
  fold w1 in Hcalls1, Hhistory1.
  assert (analyzing w1 !! length (analyzing w)
          = Some {| call_inputText := inputText (app w); call_subject := subject (app w);
                    call_selectedImage := selectedImage (app w) |}) as Hcall.
  { rewrite Hcalls1, Hcalls. by apply list_lookup_middle. }
  pose proof (step_settles_prepends w1 _ reply now1 now2 _ data Hcall Hdata) as Hnew.
  subst w2. rewrite Hnew, Hhistory1, Hhistory. done.
Qed.

(** *** Opening a record *)

(** X9.  Opening a record from the history tab shows its result without any
    request: the inputs become the record's text, subject and image (an
    empty image counts as none), the status is [SUCCESS] on the analysis
    tab, and the history, the storage and the calls in flight are
    untouched.  If the record has a text or an image, the submit button is
    enabled afterwards. *)
Theorem open_record_replays w (i : nat) (item : HistoryItem.t) :
  showing HISTORY w = true →
  history (app w) !! i = Some item →
  let w' := step w (ClickHistoryDetails i) in
  (activeTab (app w') = ANALYZE ∧ status (app w') = SUCCESS
   ∧ result (app w') = Some (HistoryItem.result item))
  ∧ (inputText (app w') = HistoryItem.originalProblem item
     ∧ subject (app w') = HistoryItem.subject item
     ∧ selectedImage (app w') = cardThumbnail item)
  ∧ (history (app w') = history (app w) ∧ localStorage w' = localStorage w
     ∧ analyzing w' = analyzing w ∧ generating w' = generating w)
  ∧ (hasContent item = true → submitDisabled (app w') = false).
Proof.
  intros Htab Hitem w'.
  assert (handle (ClickHistoryDetails i) w = with_app (loadHistoryItem item) w) as Hhandle.
  { simpl. by rewrite Hitem, Htab. }
  assert (w' = with_app (loadHistoryItem item) w) as ->.
  { subst w'. unfold step. rewrite Hhandle. by apply commit_same_ref. }
  split_and!; try done.
  unfold hasContent, submitDisabled, cardThumbnail. simpl.
  destruct (truthy (HistoryItem.originalProblem item)); [done|]. simpl.
  by destruct (truthy_opt (HistoryItem.originalImage item)) eqn:Himage; rewrite ?Himage.
Qed.

(** *** No empty record *)

Lemma step_has_content w a :
  Forall (λ call, callHasContent call = true) (analyzing w) →
  Forall (λ item, hasContent item = true) (history (app w)) →
  Forall (λ call, callHasContent call = true) (analyzing (step w a))
  ∧ Forall (λ item, hasContent item = true) (history (app (step w a))).
Proof.
  intros Hcalls Hitems. rewrite step_analyzing.
  split.
  - destruct a; simpl; repeat case_match; simpl; try done;
      try (unfold handleVocabSubmit; by case_match).
    + unfold handleSubmit.
      destruct (negb _ && negb _) eqn:Hguard; [done|]. simpl.
      apply Forall_app. split; [done|]. apply Forall_singleton.
      unfold callHasContent. simpl.
      by destruct (truthy (inputText (app w))), (truthy_opt (selectedImage (app w))).
    + by apply Forall_delete.
  - assert (∀ h, h `sublist_of` history (app w) →
                 Forall (λ item, hasContent item = true) h) as Hsublist.
    { intros h Hsub. apply Forall_forall. intros item Hitem.
      rewrite Forall_forall in Hitems. apply Hitems. by eapply elem_of_sublist. }
    destruct a as [| | | | | |k reply now1 now2| | | | | | | | |];
      try (match goal with
           | |- context [step w ?b] =>
               destruct (step_history w b) as [(? & ? & ? & ? & ? & ? & [=] & _)|Hsub]
           end; by apply Hsublist).
    rewrite step_app. simpl.
    destruct (analyzing w !! k) as [call|] eqn:Hk; [|done]. simpl.
    destruct (analyzeProblem reply) as [data|e]; [|done]. simpl.
    apply Forall_cons. split; [|done].
    by apply (Forall_lookup_1 _ _ _ _ Hcalls Hk).
Qed.

(** X10.  No record is created without content: if every record loaded at
    startup has a text or an image, so has every record of the history in
    every state the component reaches, and every call in flight. *)
Theorem records_have_content (s : Store) (trace : list Action) :
  Forall (λ item, hasContent item = true) (initialHistory s) →
  let w := run (mount s) trace in
  Forall (λ item, hasContent item = true) (history (app w))
  ∧ Forall (λ call, callHasContent call = true) (analyzing w).
Proof.
  intros Hloaded w. subst w.
  assert (∀ w, Forall (λ call, callHasContent call = true) (analyzing w) →
               Forall (λ item, hasContent item = true) (history (app w)) →
               Forall (λ item, hasContent item = true) (history (app (run w trace)))
               ∧ Forall (λ call, callHasContent call = true) (analyzing (run w trace)))
    as Hrun.
  { induction trace as [|a trace IH]; intros w Hcalls Hitems; [done|].
    change (run w (a :: trace)) with (run (step w a) trace).
    destruct (step_has_content w a Hcalls Hitems). by apply IH. }
  by apply Hrun.
Qed.

(** *** One vocabulary request at a time *)

(** X11.  As long as the Enter key is not pressed in the topic field while a
    vocabulary request is in flight, at most one vocabulary call is in
    flight and there is one exactly while the status is [LOADING]; while it
    is in flight there is no result and no card is revealed; and the
    revealed indices are always indices of the result's cards. *)
Theorem one_vocabulary_request_at_a_time (s : Store) (trace : list Action) :
  one_at_a_time (mount s) trace →
  let w := run (mount s) trace in
  (length (generating w) ≤ 1)%nat
  ∧ (generating w ≠ [] ↔ vocabStatus (app w) = LOADING)
  ∧ (generating w ≠ [] → vocabResult (app w) = None ∧ revealedWords (app w) = ∅)
  ∧ (∀ v, vocabResult (app w) = Some v →
          revealedWords (app w) ⊆ allCards (length (words v))).
Proof.
  intros Htrace w.
  pose proof (reveal_set_within_result _ _ (mount_vocab_consistent s) Htrace) as Hinv.
  fold w in Hinv. unfold vocab_consistent in Hinv.
  destruct (generating w) as [|t [|??]]; simpl in *; [| |done].
  - destruct Hinv as [Hloading Hsub]. split_and!; [lia| |done|done].
    split; [done|]. intros Hl. by destruct Hloading.
  - destruct Hinv as (Hloading & Hnone & Hempty). split_and!; [lia| |done|].
    + by split.
    + intros v Hv. congruence.
Qed.

(** X12.  In such a run the cards of an answer that arrives all start
    hidden: when the call in flight settles with a result, the session is
    [SUCCESS] with that result and an empty reveal-set. *)
Theorem new_cards_start_hidden (s : Store) (trace : list Action)
    (k : nat) (reply : Completion (option string)) (data : VocabularyResponse) :
  one_at_a_time (mount s) trace →
  is_Some (generating (run (mount s) trace) !! k) →
  generateVocabulary reply = Normal data →
  let w' := step (run (mount s) trace) (VocabularySettles k reply) in
  vocabStatus (app w') = SUCCESS
  ∧ vocabResult (app w') = Some data
  ∧ revealedWords (app w') = ∅
  ∧ generating w' = [].
Proof.
  intros Htrace [t Hk] Hdata w'.
  pose proof (reveal_set_within_result _ _ (mount_vocab_consistent s) Htrace) as Hinv.
  unfold vocab_consistent in Hinv. subst w'.
  rewrite step_generating, step_app. simpl. rewrite Hk, Hdata. simpl.
  destruct (generating (run (mount s) trace)) as [|t' [|??]]; [done| |done].
  destruct Hinv as (_ & _ & Hempty). destruct k as [|k]; [|done].
  by split_and!.
Qed.

(** *** Starting up *)

(** X13.  The initializer of the history returns the empty list when
    reading the storage throws, when nothing is stored, and when the stored
    text is empty (the parser is not consulted then); when the stored text
    parses, it returns what the parser returned. *)
Theorem load_cases (s : Store) :
  (∀ e, getItem s storageKey = Throw e → load s = Normal [])
  ∧ (getItem s storageKey = Normal None → load s = Normal [])
  ∧ (getItem s storageKey = Normal (Some "") → load s = Normal [])
  ∧ (∀ text h, getItem s storageKey = Normal (Some text) → truthy text = true →
               JSON_parse text = Normal h → load s = Normal h).
Proof.
  unfold load, try_catch. split_and!.
  - by intros e ->.
  - by intros ->.
  - by intros ->.
  - intros text h -> Htext Hparse. simpl. by rewrite Htext, Hparse.
Qed.

(** X14.  The first render saves what was loaded: if the write returns,
    storage reads back as the serialisation of the initial history.  In
    particular stored text that did not parse is replaced by the
    serialisation of the empty list. *)
Theorem mount_saves_what_it_loaded {Hspec : StorageSpec Store} (s s' : Store) :
  setItem s storageKey (JSON_stringify (initialHistory s)) = Normal s' →
  localStorage (mount s) = s'
  ∧ persisted (mount s)
  ∧ ∀ saved e,
      getItem s storageKey = Normal (Some saved) →
      JSON_parse (T:=list HistoryItem.t) saved = Throw e →
      getItem (localStorage (mount s)) storageKey
      = Normal (Some (JSON_stringify (@nil HistoryItem.t))).
Proof.
  intros Hwrite.
  assert (localStorage (mount s) = s') as Hstore.
  { simpl. unfold persistHistory. simpl. by rewrite Hwrite. }
  assert (persisted (mount s)) as Hsaved.
  { unfold persisted. rewrite Hstore. simpl. by eapply getItem_setItem. }
  split_and!; [done..|].
  intros saved e Hread Hparse. unfold persisted in Hsaved. rewrite Hsaved. simpl.
  unfold initialHistory, load, try_catch. rewrite Hread. simpl.
  destruct (truthy saved); [|done]. by rewrite Hparse.
Qed.

(** X15.  What was saved is what the next start loads: after an append, a
    confirmed remove or a confirmed clear whose write returned, if the
    parser reads the written text back as the list, then loading from the
    storage gives the history in memory, and a component mounted on that
    storage starts with it. *)
Theorem reload_recovers_history {Hspec : StorageSpec Store} w a :
  mutates a w = true →
  let w' := step w a in
  let text := JSON_stringify (history (app w')) in
  succeeded (setItem (localStorage w) storageKey text) = true →
  truthy text = true →
  JSON_parse text = Normal (history (app w')) →
  load (localStorage w') = Normal (history (app w'))
  ∧ history (app (mount (localStorage w'))) = history (app w').
Proof.
  intros Hmut w' text Hwrite Htext Hparse.
  pose proof (step_mutation _ _ Hmut) as Hstore. fold w' in Hstore.
  unfold persistHistory in Hstore. fold text in Hstore.
  destruct (setItem (localStorage w) storageKey text) as [s'|e] eqn:Hset; [|done].
  assert (getItem (localStorage w') storageKey = Normal (Some text)) as Hread.
  { rewrite Hstore. by eapply getItem_setItem. }
  assert (load (localStorage w') = Normal (history (app w'))) as Hload.
  { unfold load, try_catch. rewrite Hread. simpl. by rewrite Htext, Hparse. }
  split; [done|]. simpl. unfold initialHistory. by rewrite Hload.
Qed.

(** *** The services *)

(** X16.  Both services turn a reply into a result in the same way: an
    error of the call is thrown on unchanged; a response without text, or
    with empty text, is the error "No response from AI"; otherwise the
    outcome is the parser's, its error included. *)
Theorem services_pass_errors_through (reply : Completion (option string)) :
  let settle {T} `{JSON T} : Completion T :=
    match reply with
    | Throw e => Throw e
    | Normal None => Throw "No response from AI"
    | Normal (Some text) =>
        if truthy text then JSON_parse text else Throw "No response from AI"
    end in
  analyzeProblem reply = settle ∧ generateVocabulary reply = settle.
Proof.
  simpl. unfold analyzeProblem, generateVocabulary, try_catch.
  destruct reply as [[text|]|e]; simpl; try done.
  destruct (truthy text); [|done].
  by destruct (JSON_parse (T:=AnalysisResponse) text),
              (JSON_parse (T:=VocabularyResponse) text).
Qed.

(** *** What changes the history *)

(** X17.  One action changes the length of the history by at most one
    record upwards, and only the successful completion of an analysis call
    in flight adds a record. *)
Theorem only_completions_add_records w a :
  (length (history (app (step w a))) ≤ S (length (history (app w))))%nat
  ∧ ((length (history (app w)) < length (history (app (step w a))))%nat →
     ∃ k reply now1 now2 call,
       a = AnalysisSettles k reply now1 now2
       ∧ analyzing w !! k = Some call
       ∧ succeeded (analyzeProblem reply) = true).
Proof.
  destruct (step_history w a)
    as [(k & reply & now1 & now2 & call & data & -> & Hnew)|Hsub].
  - rewrite Hnew. simpl. split; [lia|]. intros _.
    rewrite step_app in Hnew. simpl in Hnew.
    destruct (analyzing w !! k) as [call'|] eqn:Hk.
    + destruct (analyzeProblem reply) eqn:Hreply.
      * exists k, reply, now1, now2, call'. by rewrite Hreply.
      * apply (f_equal length) in Hnew. simpl in Hnew. lia.
    + apply (f_equal length) in Hnew. simpl in Hnew. lia.
  - apply sublist_length in Hsub. split; lia.
Qed.

(** X18.  Only an append, a confirmed remove and a confirmed clear write:
    along any trace without them the history in memory and the storage stay
    what they were. *)
Theorem nothing_written_without_mutation w (trace : list Action) :
  quiet w trace →
  history (app (run w trace)) = history (app w)
  ∧ localStorage (run w trace) = localStorage w.
Proof.
  revert w. induction trace as [|a trace IH]; intros w Hquiet; [done|].
  destruct Hquiet as [Ha Hquiet].
  change (run w (a :: trace)) with (run (step w a) trace).
  destruct (IH _ Hquiet) as [-> ->]. by apply step_without_mutation.
Qed.

(** *** The report and its answer *)

Lemma reconcile_rendered before st :
  is_Some (reconcile before st) ↔ reportRendered st = true.
Proof.
  unfold reconcile. by destruct (reportRendered st).
Qed.

Lemma page_run_rendered (p : Page Store) (trace : list PageAction) :
  (is_Some (showAnswer p) ↔ reportRendered (app (world p)) = true) →
  is_Some (showAnswer (page_run p trace))
  ↔ reportRendered (app (world (page_run p trace))) = true.
Proof.
  revert p. induction trace as [|a trace IH]; intros p Hinv; [done|].
  change (page_run p (a :: trace)) with (page_run (page_step p a) trace).
  apply IH. destruct a as [a|]; simpl.
  - apply reconcile_rendered.
  - rewrite <-Hinv. by rewrite fmap_is_Some.
Qed.

(** X19.  The report has its cell exactly while it is rendered.  A report
    that appears by opening a record from the history tab starts with the
    answer hidden, and an accepted submission removes the report together
    with the state of its answer, so the report of the next result starts
    with the answer hidden as well. *)
Theorem report_starts_with_answer_hidden (s : Store) (trace : list PageAction) :
  let p := page_run (page_mount s) trace in
  (is_Some (showAnswer p) ↔ reportRendered (app (world p)) = true)
  ∧ (∀ i, showing HISTORY (world p) = true →
          is_Some (history (app (world p)) !! i) →
          showAnswer (page_step p (OnApp (ClickHistoryDetails i))) = Some false)
  ∧ (showing ANALYZE (world p) = true →
     submitDisabled (app (world p)) = false →
     showAnswer (page_step p (OnApp ClickSubmit)) = None).
Proof.
  intros p.
  assert (is_Some (showAnswer p) ↔ reportRendered (app (world p)) = true) as Hinv.
  { apply page_run_rendered. apply reconcile_rendered. }
  split_and!; [done| |].
  - intros i Htab [item Hitem].
    assert (showAnswer p = None) as Hnone.
    { apply eq_None_not_Some. rewrite Hinv. unfold reportRendered.
      unfold showing in Htab. apply bool_decide_eq_true in Htab. rewrite Htab. done. }
    simpl. rewrite step_app. simpl. rewrite Hitem, Htab, Hnone. done.
  - intros Htab Henabled.
    destruct (step_submit_enabled (world p) Htab Henabled) as (_ & _ & Hloading).
    simpl. unfold reconcile, reportRendered. rewrite Hloading. simpl.
    by rewrite andb_false_r.
Qed.

End MoreFacts.

(** *** The request of [analyzeProblem] *)

Lemma list_ascii_of_string_app (s1 s2 : string) :
  String.list_ascii_of_string (s1 +:+ s2)
  = String.list_ascii_of_string s1 ++ String.list_ascii_of_string s2.
Proof.
  induction s1 as [|c s1 IH]; [done|].
  change (String c s1 +:+ s2) with (String c (s1 +:+ s2)). simpl. by rewrite IH.
Qed.

Lemma split_chars_nonempty (sep : ascii) (cs : list ascii) : split_chars sep cs ≠ [].
Proof. destruct cs as [|c cs]; simpl; [done|]. by repeat case_match. Qed.

Lemma split_chars_without (sep : ascii) (cs : list ascii) :
  sep ∉ cs → split_chars sep cs = [cs].
Proof.
  induction cs as [|c cs IH]; [done|].
  rewrite not_elem_of_cons. intros [Hc Hcs]. simpl.
  rewrite decide_False by done. by rewrite IH.
Qed.

Lemma split_chars_at (sep : ascii) (cs rest : list ascii) :
  sep ∉ cs → split_chars sep (cs ++ sep :: rest) = cs :: split_chars sep rest.
Proof.
  induction cs as [|c cs IH]; simpl.
  - intros _. by rewrite decide_True.
  - rewrite not_elem_of_cons. intros [Hc Hcs].
    rewrite decide_False by done. by rewrite IH.
Qed.

Lemma split_without (sep : ascii) (s : string) :
  sep ∉ String.list_ascii_of_string s → split sep s = [s].
Proof.
  intros Hs. unfold split. rewrite split_chars_without by done.
  simpl. by rewrite String.string_of_list_ascii_of_string.
Qed.

Lemma split_at (sep : ascii) (s rest : string) :
  sep ∉ String.list_ascii_of_string s →
  split sep (s +:+ String sep rest) = s :: split sep rest.
Proof.
  intros Hs. unfold split. rewrite list_ascii_of_string_app. simpl.
  rewrite split_chars_at by done.
  rewrite fmap_cons. by rewrite String.string_of_list_ascii_of_string.
Qed.

Lemma split_head (sep : ascii) (s : string) :
  ∃ seg segs, split sep s = seg :: segs.
Proof.
  unfold split. pose proof (split_chars_nonempty sep (String.list_ascii_of_string s)).
  destruct (split_chars sep _) as [|seg segs]; [done|]. simpl. eauto.
Qed.

Lemma cleanBase64_data_url (header payload : string) :
  ","%char ∉ String.list_ascii_of_string header →
  ","%char ∉ String.list_ascii_of_string payload →
  cleanBase64 (header +:+ String "," payload)
  = if truthy payload then payload else header +:+ String "," payload.
Proof.
  intros Hheader Hpayload. unfold cleanBase64.
  rewrite split_at, split_without by done. simpl. by destruct payload.
Qed.

(** X20.  [cleanBase64] returns the part of its argument between the first
    and the second comma, when there is a first comma and that part is not
    empty; otherwise it returns the argument unchanged.  So the payload of
    a data URL is extracted, a string without comma is sent as it is, a
    data URL with an empty payload is sent whole, and what follows a second
    comma is dropped. *)
Theorem cleanBase64_cases (header payload rest : string) :
  ","%char ∉ String.list_ascii_of_string header →
  ","%char ∉ String.list_ascii_of_string payload →
  cleanBase64 header = header
  ∧ cleanBase64 (header +:+ String "," payload)
    = (if truthy payload then payload else header +:+ String "," payload)
  ∧ cleanBase64 (header +:+ String "," (payload +:+ String "," rest))
    = (if truthy payload then payload
       else header +:+ String "," (payload +:+ String "," rest)).
Proof.
  intros Hheader Hpayload. unfold cleanBase64. split_and!.
  - by rewrite split_without.
  - by apply cleanBase64_data_url.
  - rewrite split_at by done.
    rewrite (split_at _ payload rest) by done. simpl.
    by destruct (truthy payload).
Qed.

(** X21.  The request of a call always starts with the prompt.  A call
    without image (none selected, or the empty string) sends the prompt
    alone; a call whose image is a data URL sends a second part with the
    URL's payload, declared as [image/jpeg] whatever the URL's own media
    type. *)
Theorem request_of_a_call (call : AnalysisCall) (header payload : string) :
  ","%char ∉ String.list_ascii_of_string header →
  ","%char ∉ String.list_ascii_of_string payload →
  truthy payload = true →
  let prompt := TextPart (promptText (call_inputText call) (call_subject call)) in
  head (callParts call) = Some prompt
  ∧ (truthy_opt (call_selectedImage call) = false → callParts call = [prompt])
  ∧ (call_selectedImage call = Some (header +:+ String "," payload) →
     callParts call = [prompt; InlineData "image/jpeg" payload]).
Proof.
  intros Hheader Hpayload Htruthy prompt. unfold callParts, requestParts.
  split_and!; [done| |].
  - intros ->. done.
  - intros ->.
    assert (truthy (header +:+ String "," payload) = true) as Himage
      by (by destruct header).
    simpl. rewrite Himage. simpl. rewrite Himage, cleanBase64_data_url by done.
    by rewrite Htruthy.
Qed.

(** ** The facts at work in the browser of [Browser] *)

Module Examples.
Import Browser Scenario.

Lemma Area_reads_back : StorageSpec Area.
Proof.
  intros s k v s'. simpl. case_decide; [|done].
  intros [= <-]. simpl. by rewrite lookup_insert_eq.
Qed.

Example parse_stringify_sample :
  JSON_parse (JSON_stringify sample) = Normal sample.
Proof. vm_compute. reflexivity. Qed.

Example history_round_trip :
  let h := [newItem why sample 2000 2001; newItem why sample 1000 1001] in
  JSON_parse (JSON_stringify h) = Normal h.
Proof. vm_compute. reflexivity. Qed.

(** The scenario of the specification: append A, append B, delete A, clear. *)
Example append_delete_clear :
  let A := newItem why sample 1 1 in
  let B := newItem why sample 2 2 in
  let st := foldl complete (initialState []) [(why, sample, 1%Z, 1%Z); (why, sample, 2%Z, 2%Z)] in
  history st = [B; A]
  ∧ history (deleteHistoryItem true "1" st) = [B]
  ∧ history (clearHistory true (deleteHistoryItem true "1" st)) = [].
Proof. vm_compute. done. Qed.

(** *** Write-through *)

(** C2, at work: with room in storage the appended record is read back. *)
Lemma history_saved_unless_write_fails_witness :
  let w := run (mount (area 5000)) asked in
  let a := AnalysisSettles 0 (replying sample) 1000 1000 in
  mutates a w = true
  ∧ match setItem (localStorage w) storageKey
            (JSON_stringify (history (app (step w a)))) with
    | Normal s' => localStorage (step w a) = s' ∧ persisted (step w a)
    | Throw _ => localStorage (step w a) = localStorage w
    end.
Proof.
  intros w a.
  assert (mutates a w = true) as Hmut by (vm_compute; reflexivity).
  split; [exact Hmut|].
  pose proof (history_saved_unless_write_fails (Hspec:=Area_reads_back) w a Hmut) as Hsaved.
  exact Hsaved.
Defined.

Example saved_with_room :
  let w := run (mount (area 5000)) asked in
  persisted (step w (AnalysisSettles 0 (replying sample) 1000 1000)).
Proof. vm_compute. reflexivity. Qed.

(** C2, refuted as stated.  In a storage area of 100 characters the
    component mounts (the empty list fits) and a question is asked.  When the
    answer arrives the record is in memory, the write of the one-record list
    exceeds the quota and throws, the effect drops the failure, and storage
    still holds the empty list. *)
Lemma append_not_written_through :
  let w := run (mount (area 100)) asked in
  let a := AnalysisSettles 0 (replying sample) 1000 1000 in
  mutates a w = true
  ∧ history (app (step w a)) = [newItem why sample 1000 1000]
  ∧ getItem (localStorage (step w a)) storageKey = Normal (Some "[]")
  ∧ ¬ persisted (step w a).
Proof.
  intros w a. split_and!; try (vm_compute; reflexivity).
  intros Hsaved. vm_compute in Hsaved. discriminate Hsaved.
Qed.

(** *** Removing *)

(** C3, at work on the two-record history [B; A]. *)
Lemma remove_deletes_every_match_witness :
  let A := newItem why sample 1 1 in
  let B := newItem why sample 2 2 in
  let st := initialState [B; A] in
  history (deleteHistoryItem true "1" st) = [B]
  ∧ history (deleteHistoryItem true "1" (deleteHistoryItem true "1" st)) = [B]
  ∧ history (deleteHistoryItem true "3" st) = [B; A].
Proof.
  intros A B st.
  destruct (remove_deletes_every_match "1" st) as (_ & _ & _ & Htwice & Hfirst & _).
  destruct (remove_deletes_every_match "3" st) as (_ & _ & Habsent & _).
  split_and!.
  - rewrite Hfirst; [reflexivity|]. compute_done.
  - rewrite Htwice, Hfirst; [reflexivity|]. compute_done.
  - apply Habsent. compute_done.
Defined.

(** C3, refuted as stated.  The two records completed in the same
    millisecond share the identifier 2000: removing it deletes both, where
    deleting the first match would keep the second. *)
Lemma remove_deletes_both_twins :
  let B := newItem why sample 2000 2000 in
  let C := newItem why sample 2000 2001 in
  let st := initialState [C; B] in
  history (deleteHistoryItem true "2000" st) = []
  ∧ remove_first "2000" (history st) = [B]
  ∧ history (deleteHistoryItem true "2000" st) ≠ remove_first "2000" (history st).
Proof. vm_compute. split_and!; done. Qed.

(** *** Identifiers *)

(** C4, at work: two requests completed at different clock readings. *)
Lemma ids_distinct_while_clock_distinct_witness :
  let trace :=
    asked ++ [AnalysisSettles 0 (replying sample) 1000 1000; ClickSubmit;
              AnalysisSettles 0 (replying sample) 2000 2000] in
  HistoryItem.id <$> history (app (run (mount (area 5000)) trace)) = ["2000"; "1000"]
  ∧ NoDup (HistoryItem.id <$> history (app (run (mount (area 5000)) trace))).
Proof.
  intros trace. split; [vm_compute; reflexivity|].
  assert (NoDup (HistoryItem.id <$> initialHistory (area 5000))) as Hloaded
    by compute_done.
  assert (NoDup (idClock trace)) as Hclock by compute_done.
  assert (∀ t, t ∈ idClock trace →
               toString t ∉ HistoryItem.id <$> initialHistory (area 5000)) as Hfresh.
  { intros t _. vm_compute. apply not_elem_of_nil. }
  pose proof (ids_distinct_while_clock_distinct (area 5000) trace Hloaded Hclock Hfresh)
    as [Hdistinct _].
  exact Hdistinct.
Defined.

(** C4, refuted as stated.  Starting from an empty storage, two calls in
    flight together settle at the same clock reading and their records get
    the same identifier. *)
Lemma same_millisecond_same_id :
  let w := run (mount (area 5000)) same_millisecond in
  HistoryItem.id <$> history (app w) = ["2000"; "2000"; "1000"]
  ∧ ¬ NoDup (HistoryItem.id <$> history (app w)).
Proof.
  intros w.
  assert (HistoryItem.id <$> history (app w) = ["2000"; "2000"; "1000"]) as Hids.
  { vm_compute. reflexivity. }
  split; [done|]. rewrite Hids. intros Hdup.
  apply NoDup_cons in Hdup as [Hfresh _]. apply Hfresh. left.
Qed.

Example twins_are_reachable :
  take 2 (history (app (run (mount (area 5000)) same_millisecond)))
  = [newItem why sample 2000 2001; newItem why sample 2000 2000].
Proof. vm_compute. reflexivity. Qed.

(** *** Submitting *)

(** C5, at work: a click on submit when nothing was entered, in the idle
    session and in a session that has succeeded. *)
Lemma handleSubmit_rejects_empty_witness :
  let idle := mount (area 5000) in
  let done := run idle (asked ++ [AnalysisSettles 0 (replying sample) 1000 1000;
                                  ChangeInputText ""]) in
  (handleSubmit idle = idle ∧ step idle ClickSubmit = idle)
  ∧ status (app done) = SUCCESS
  ∧ (handleSubmit done = done ∧ step done ClickSubmit = done).
Proof.
  intros idle done.
  assert (inputText (app idle) = "") as Htext0 by (vm_compute; reflexivity).
  assert (selectedImage (app idle) = None) as Himage0 by (vm_compute; reflexivity).
  assert (inputText (app done) = "") as Htext1 by (vm_compute; reflexivity).
  assert (selectedImage (app done) = None) as Himage1 by (vm_compute; reflexivity).
  split; [|split].
  - pose proof (handleSubmit_rejects_empty idle Htext0 Himage0) as Hidle. exact Hidle.
  - vm_compute. reflexivity.
  - pose proof (handleSubmit_rejects_empty done Htext1 Himage1) as Hdone. exact Hdone.
Defined.

(** C6, at the failing input.  With a vocabulary request in flight the
    submit button does nothing, and the Enter key in the topic field starts
    a second request. *)
Lemma enter_key_starts_second_request :
  let w := run (mount (area 5000)) topic_submitted in
  vocabStatus (app w) = LOADING
  ∧ generating w = ["travel"]
  ∧ step w ClickVocabSubmit = w
  ∧ generating (step w (KeyDownVocabTopic "Enter")) = ["travel"; "travel"]
  ∧ vocabStatus (app (step w (KeyDownVocabTopic "Enter"))) = LOADING.
Proof. vm_compute. split_and!; reflexivity. Qed.

(** *** Loading *)

(** C7, at work: storage holds text that is not JSON. *)
Lemma load_falls_back_to_empty_witness :
  let s := area_holding "{oops" in
  getItem s storageKey = Normal (Some "{oops")
  ∧ JSON_parse (T:=list HistoryItem.t) "{oops" = Throw "SyntaxError"
  ∧ load s = Normal []
  ∧ history (app (mount s)) = [].
Proof.
  intros s.
  assert (getItem s storageKey = Normal (Some "{oops")) as Hsaved
    by (vm_compute; reflexivity).
  assert (JSON_parse (T:=list HistoryItem.t) "{oops" = Throw "SyntaxError") as Hparse
    by (vm_compute; reflexivity).
  split; [exact Hsaved|]. split; [exact Hparse|].
  pose proof (load_falls_back_to_empty s "{oops" "SyntaxError" Hsaved Hparse) as Hempty.
  exact Hempty.
Defined.

Example load_reads_what_was_saved :
  let w := run (mount (area 5000)) (asked ++ [AnalysisSettles 0 (replying sample) 1000 1000]) in
  load (localStorage w) = Normal (history (app w)).
Proof. vm_compute. reflexivity. Qed.

(** *** Failing *)

(** C8, at work: the service is unreachable, and the service answers with
    text that is not JSON. *)
Lemma failed_analysis_leaves_history_witness :
  let w := run (mount (area 5000)) asked in
  let unreachable := step w (AnalysisSettles 0 (Throw "network down") 1000 1000) in
  let garbled := step w (AnalysisSettles 0 (Normal (Some "<html>")) 1000 1000) in
  (status (app unreachable) = ERROR
   ∧ errorMsg (app unreachable) = Some analysisFailedMsg
   ∧ history (app unreachable) = history (app w)
   ∧ localStorage unreachable = localStorage w)
  ∧ (status (app garbled) = ERROR
     ∧ errorMsg (app garbled) = Some analysisFailedMsg
     ∧ history (app garbled) = history (app w)
     ∧ localStorage garbled = localStorage w).
Proof.
  intros w unreachable garbled.
  assert (analyzing w !! 0 = Some why) as Hcall by (vm_compute; reflexivity).
  assert (analyzeProblem (Throw "network down") = Throw "network down") as Hdown
    by reflexivity.
  assert (analyzeProblem (Normal (Some "<html>")) = Throw "SyntaxError") as Hgarbled
    by (vm_compute; reflexivity).
  split.
  - pose proof (failed_analysis_leaves_history w 0 (Throw "network down") 1000 1000
                  why "network down" Hcall Hdown) as Hfailed.
    exact Hfailed.
  - pose proof (failed_analysis_leaves_history w 0 (Normal (Some "<html>")) 1000 1000
                  why "SyntaxError" Hcall Hgarbled) as Hfailed.
    exact Hfailed.
Defined.

(** *** The reveal-set *)

(** C9, at work: six entries, none revealed; all six after [toggleAll],
    none after a second one. *)
Lemma toggleAll_all_or_nothing_witness :
  revealedWords (toggleAllWords six_hidden) = allCards 6
  ∧ revealedWords (toggleAllWords (toggleAllWords six_hidden)) = ∅.
Proof.
  assert (toggleAllWords six_hidden = setRevealedWords (allCards 6) six_hidden) as Hall.
  { rewrite (toggleAll_all_or_nothing six_hidden six); [|reflexivity|compute_done].
    rewrite decide_False; [reflexivity|compute_done]. }
  split; [by rewrite Hall|].
  rewrite Hall, (toggleAll_all_or_nothing _ six); [|reflexivity|compute_done].
  rewrite decide_True; [reflexivity|compute_done].
Defined.

(** C9, refuted as stated.  A topic is submitted with the button and again
    with the Enter key; the first answer has six cards, of which the last and
    the first are turned; the second answer has two cards.  The reveal-set
    [{0, 5}] is not the full set [{0, 1}], yet its size is the number of
    cards, and [toggleAll] empties it. *)
Lemma toggleAll_judges_by_size :
  let w := run (mount (area 5000)) stale_reveal in
  vocabResult (app w) = Some two
  ∧ revealedWords (app w) = {[ 0; 5 ]}
  ∧ revealedWords (app w) ≠ allCards 2
  ∧ revealedWords (app (step w ClickToggleAll)) = ∅
  ∧ revealedWords (toggleAllWords (app w)) ≠ allCards 2.
Proof.
  intros w. split_and!; try (vm_compute; reflexivity); compute_done.
Qed.

(** *** Results kept across a failure *)

(** C10, at work: a question asked after an earlier success, the topic
    field edited meanwhile, and the request failing. *)
Lemma accepted_submit_clears_result_witness :
  let w := run (mount (area 5000))
             (asked ++ [AnalysisSettles 0 (replying sample) 1000 1000]) in
  let meanwhile := [ClickTab VOCABULARY; ChangeVocabTopic "travel"; ClickTab ANALYZE] in
  let w2 := step (run (handleSubmit w) meanwhile)
              (AnalysisSettles 0 (Throw "network down") 2000 2000) in
  result (app w) = Some sample
  ∧ result (app (handleSubmit w)) = None
  ∧ status (app w2) = ERROR ∧ result (app w2) = None.
Proof.
  intros w meanwhile w2.
  destruct (accepted_submit_clears_result w meanwhile) as (_ & Hcleared & _ & _ & Hfails);
    [vm_compute; reflexivity..|].
  split; [vm_compute; reflexivity|]. split; [exact Hcleared|].
  apply (Hfails 0 (Throw "network down") 2000%Z 2000%Z "network down").
  - vm_compute. eexists. reflexivity.
  - reflexivity.
Defined.

(** C10, refuted as stated.  A first request succeeds and its record is
    stored.  A second submission is accepted and clears the result; while it
    is in flight the stored record is opened from the history tab, which
    sets the result again; the request then fails.  The session is in
    [ERROR] and holds the result of the earlier successful request. *)
Lemma failed_session_keeps_replayed_result :
  let before := run (mount (area 5000))
                  (asked ++ [AnalysisSettles 0 (replying sample) 1000 1000; ClickSubmit]) in
  let w := run (mount (area 5000)) failure_after_replay in
  status (app before) = LOADING ∧ result (app before) = None
  ∧ status (app w) = ERROR ∧ result (app w) = Some sample.
Proof. vm_compute. split_and!; reflexivity. Qed.

End Examples.

(** ** The further facts at work *)

Module Coverage.
Import Browser Scenario Walkthrough.

(** X3, at work: the vocabulary tab with nothing typed. *)
Lemma handleVocabSubmit_rejects_empty_witness :
  let w := run (mount (area 5000)) [ClickTab VOCABULARY] in
  handleVocabSubmit w = w
  ∧ step w ClickVocabSubmit = w
  ∧ ∀ key, step w (KeyDownVocabTopic key) = w.
Proof.
  intros w.
  assert (vocabTopic (app w) = "") as Htopic by (vm_compute; reflexivity).
  pose proof (handleVocabSubmit_rejects_empty w Htopic) as Hrejected.
  exact Hrejected.
Defined.

(** X4, at work: a vocabulary request submitted while an analysis request
    is in flight, and the question edited while a vocabulary request is. *)
Lemma sessions_independent_witness :
  let w := run (mount (area 5000)) (asked ++ topic_typed) in
  let v := run w [ClickVocabSubmit; ClickTab ANALYZE] in
  (analysisCells (app (step w ClickVocabSubmit)) = analysisCells (app w)
   ∧ analyzing (step w ClickVocabSubmit) = analyzing w
   ∧ history (app (step w ClickVocabSubmit)) = history (app w)
   ∧ localStorage (step w ClickVocabSubmit) = localStorage w)
  ∧ (vocabularyCells (app (step v (ChangeInputText "why not"))) = vocabularyCells (app v)
     ∧ generating (step v (ChangeInputText "why not")) = generating v).
Proof.
  intros w v.
  pose proof (proj1 (sessions_independent w ClickVocabSubmit) eq_refl) as Hleft.
  pose proof (proj2 (sessions_independent v (ChangeInputText "why not")) eq_refl) as Hright.
  exact (conj Hleft Hright).
Defined.

(** X6, at work: after a failed request and a visit to the history tab. *)
Lemma idle_only_at_start_witness :
  let w := run (mount (area 5000)) asked in
  status (app w) = LOADING
  ∧ status (app (run w [AnalysisSettles 0 (Throw "network down") 1 1; ClickTab HISTORY]))
    ≠ IDLE.
Proof.
  intros w.
  assert (status (app w) = LOADING) as Hloading by (vm_compute; reflexivity).
  assert (status (app w) ≠ IDLE) as Hleft by (rewrite Hloading; discriminate).
  pose proof (idle_only_at_start w
                [AnalysisSettles 0 (Throw "network down") 1 1; ClickTab HISTORY] Hleft)
    as Hnever.
  exact (conj Hloading Hnever).
Defined.

(** X7, at work: a request answered, its record opened from the history
    tab and submitted again. *)
Lemma one_analysis_request_at_a_time_witness :
  let trace := answered ++ [ClickTab HISTORY; ClickHistoryDetails 0; ClickSubmit] in
  let w := run (mount (area 5000)) trace in
  one_request (mount (area 5000)) trace
  ∧ (length (analyzing w) ≤ 1)%nat
  ∧ (analyzing w ≠ [] ↔ status (app w) = LOADING)
  ∧ (status (app w) = ERROR → result (app w) = None).
Proof.
  intros trace w.
  assert (one_request (mount (area 5000)) trace) as Htrace.
  { repeat split; vm_compute; reflexivity. }
  pose proof (one_analysis_request_at_a_time (area 5000) trace Htrace) as Hone.
  exact (conj Htrace Hone).
Defined.

(** X8, at work: the question and the subject are changed while the
    request is in flight; the record holds what was submitted. *)
Lemma record_holds_submitted_inputs_witness :
  let w := run (mount (area 5000)) [ChangeInputText "why"] in
  let edits := [ChangeInputText "something else"; ClickSubject PHYSICS] in
  let w1 := run (step w ClickSubmit) edits in
  let w2 := step w1 (AnalysisSettles 0 (replying sample) 1000 1001) in
  inputText (app w2) = "something else"
  ∧ subject (app w2) = PHYSICS
  ∧ history (app w2)
    = [ {| HistoryItem.id := "1000"; HistoryItem.timestamp := 1001;
           HistoryItem.subject := MATH; HistoryItem.originalProblem := "why";
           HistoryItem.originalImage := None; HistoryItem.result := sample |} ].
Proof.
  intros w edits w1 w2.
  assert (showing ANALYZE w = true) as Htab by (vm_compute; reflexivity).
  assert (submitDisabled (app w) = false) as Henabled by (vm_compute; reflexivity).
  assert (forallb isEdit edits = true) as Hedits by reflexivity.
  assert (analyzeProblem (replying sample) = Normal sample) as Hdata
    by (vm_compute; reflexivity).
  pose proof (record_holds_submitted_inputs w edits (replying sample) 1000 1001 sample
                Htab Henabled Hedits Hdata) as Hrecord.
  split; [vm_compute; reflexivity|]. split; [vm_compute; reflexivity|].
  exact Hrecord.
Defined.

(** X9, at work: the stored record opened again. *)
Lemma open_record_replays_witness :
  let w := run (mount (area 5000)) (answered ++ [ChangeInputText ""; ClickTab HISTORY]) in
  let w' := step w (ClickHistoryDetails 0) in
  inputText (app w) = ""
  ∧ inputText (app w') = "why"
  ∧ result (app w') = Some sample
  ∧ status (app w') = SUCCESS
  ∧ analyzing w' = []
  ∧ submitDisabled (app w') = false.
Proof.
  intros w w'.
  assert (showing HISTORY w = true) as Htab by (vm_compute; reflexivity).
  assert (history (app w) !! 0 = Some (newItem why sample 1000 1001)) as Hitem
    by (vm_compute; reflexivity).
  pose proof (open_record_replays w 0 (newItem why sample 1000 1001) Htab Hitem)
    as ((_ & Hstatus & Hresult) & (Htext & _ & _) & (_ & _ & Hcalls & _) & Hsubmit).
  split; [vm_compute; reflexivity|].
  split; [exact Htext|]. split; [exact Hresult|]. split; [exact Hstatus|].
  split; [transitivity (analyzing w); [exact Hcalls|vm_compute; reflexivity]|].
  apply Hsubmit. reflexivity.
Defined.

(** X10, at work: the records of the run with three completions. *)
Lemma records_have_content_witness :
  let w := run (mount (area 5000)) same_millisecond in
  length (history (app w)) = 3
  ∧ Forall (λ item, hasContent item = true) (history (app w))
  ∧ Forall (λ call, callHasContent call = true) (analyzing w).
Proof.
  intros w.
  assert (Forall (λ item, hasContent item = true) (initialHistory (area 5000))) as Hloaded.
  { vm_compute. constructor. }
  pose proof (records_have_content (area 5000) same_millisecond Hloaded) as Hcontent.
  split; [vm_compute; reflexivity|]. exact Hcontent.
Defined.

(** X11, at work: six cards, the last one turned, then all of them. *)
Lemma one_vocabulary_request_at_a_time_witness :
  let w := run (mount (area 5000)) cards_turned in
  one_at_a_time (mount (area 5000)) cards_turned
  ∧ revealedWords (app w) = allCards 6
  ∧ (length (generating w) ≤ 1)%nat
  ∧ (generating w ≠ [] ↔ vocabStatus (app w) = LOADING)
  ∧ (generating w ≠ [] → vocabResult (app w) = None ∧ revealedWords (app w) = ∅)
  ∧ (∀ v, vocabResult (app w) = Some v →
          revealedWords (app w) ⊆ allCards (length (words v))).
Proof.
  intros w.
  assert (one_at_a_time (mount (area 5000)) cards_turned) as Htrace.
  { repeat split; vm_compute; reflexivity. }
  pose proof (one_vocabulary_request_at_a_time (area 5000) cards_turned Htrace) as Hone.
  split; [exact Htrace|]. split; [vm_compute; reflexivity|]. exact Hone.
Defined.

(** X12, at work: the answer to the topic submitted with the button. *)
Lemma new_cards_start_hidden_witness :
  let w' := step (run (mount (area 5000)) topic_submitted)
              (VocabularySettles 0 (replying six)) in
  vocabStatus (app w') = SUCCESS
  ∧ vocabResult (app w') = Some six
  ∧ revealedWords (app w') = ∅
  ∧ generating w' = [].
Proof.
  intros w'.
  assert (one_at_a_time (mount (area 5000)) topic_submitted) as Htrace.
  { repeat split; vm_compute; reflexivity. }
  assert (is_Some (generating (run (mount (area 5000)) topic_submitted) !! 0)) as Hcall.
  { vm_compute. eexists. reflexivity. }
  assert (generateVocabulary (replying six) = Normal six) as Hdata
    by (vm_compute; reflexivity).
  pose proof (new_cards_start_hidden (area 5000) topic_submitted 0 (replying six) six
                Htrace Hcall Hdata) as Hhidden.
  exact Hhidden.
Defined.

(** X13, at work: nothing stored, the empty string stored, and the saved
    history of an earlier run. *)
Lemma load_cases_witness :
  let saved := localStorage (run (mount (area 5000)) answered) in
  load (area 5000) = Normal []
  ∧ load (area_holding "") = Normal []
  ∧ load saved = Normal [newItem why sample 1000 1001].
Proof.
  intros saved.
  destruct (load_cases (area 5000)) as (_ & Hnothing & _).
  destruct (load_cases (area_holding "")) as (_ & _ & Hempty & _).
  destruct (load_cases saved) as (_ & _ & _ & Hparsed).
  split; [apply Hnothing; vm_compute; reflexivity|].
  split; [apply Hempty; vm_compute; reflexivity|].
  apply (Hparsed (JSON_stringify [newItem why sample 1000 1001]));
    vm_compute; reflexivity.
Defined.

(** X14, at work: a storage holding text that is not JSON. *)
Lemma mount_saves_what_it_loaded_witness :
  let s := area_holding "{oops" in
  getItem s storageKey = Normal (Some "{oops")
  ∧ getItem (localStorage (mount s)) storageKey = Normal (Some "[]").
Proof.
  intros s.
  assert (setItem s storageKey (JSON_stringify (initialHistory s))
          = Normal (area_holding "[]")) as Hwrite by (vm_compute; reflexivity).
  assert (getItem s storageKey = Normal (Some "{oops")) as Hread
    by (vm_compute; reflexivity).
  assert (JSON_parse (T:=list HistoryItem.t) "{oops" = Throw "SyntaxError") as Hparse
    by (vm_compute; reflexivity).
  pose proof (mount_saves_what_it_loaded (Hspec:=Examples.Area_reads_back) s (area_holding "[]")
                Hwrite) as (_ & _ & Hreplaced).
  split; [exact Hread|].
  exact (Hreplaced "{oops" "SyntaxError" Hread Hparse).
Defined.

(** X15, at work: the record of an answered request, found again by the
    next start. *)
Lemma reload_recovers_history_witness :
  let w := run (mount (area 5000)) asked in
  let w' := step w (AnalysisSettles 0 (replying sample) 1000 1001) in
  load (localStorage w') = Normal [newItem why sample 1000 1001]
  ∧ history (app (mount (localStorage w'))) = [newItem why sample 1000 1001].
Proof.
  intros w w'.
  assert (mutates (AnalysisSettles 0 (replying sample) 1000 1001) w = true) as Hmut
    by (vm_compute; reflexivity).
  pose proof (reload_recovers_history (Hspec:=Examples.Area_reads_back) w
                (AnalysisSettles 0 (replying sample) 1000 1001) Hmut) as Hreload.
  assert (history (app w') = [newItem why sample 1000 1001]) as Hhistory
    by (vm_compute; reflexivity).
  rewrite <-Hhistory. apply Hreload; vm_compute; reflexivity.
Defined.

(** X20, at work: the data URL of a photograph, a bare payload, and a data
    URL without payload. *)
Lemma cleanBase64_cases_witness :
  cleanBase64 photo = photo_payload
  ∧ cleanBase64 photo_payload = photo_payload
  ∧ cleanBase64 (photo_header +:+ ",") = photo_header +:+ ",".
Proof.
  assert (","%char ∉ String.list_ascii_of_string photo_header) as Hheader by compute_done.
  assert (","%char ∉ String.list_ascii_of_string photo_payload) as Hpayload by compute_done.
  assert (","%char ∉ String.list_ascii_of_string "") as Hnone by compute_done.
  pose proof (cleanBase64_cases photo_header photo_payload "" Hheader Hpayload)
    as (_ & Hphoto & _).
  pose proof (cleanBase64_cases photo_payload "" "" Hpayload Hnone) as (Hbare & _).
  pose proof (cleanBase64_cases photo_header "" "" Hheader Hnone) as (_ & Hwhole & _).
  split; [exact Hphoto|]. split; [exact Hbare|]. exact Hwhole.
Defined.

(** X21, at work: a photograph submitted without text. *)
Lemma request_of_a_call_witness :
  callParts photo_call
  = [TextPart (promptText "" PHYSICS); InlineData "image/jpeg" photo_payload]
  ∧ callParts why = [TextPart (promptText "why" MATH)].
Proof.
  assert (","%char ∉ String.list_ascii_of_string photo_header) as Hheader by compute_done.
  assert (","%char ∉ String.list_ascii_of_string photo_payload) as Hpayload by compute_done.
  assert (truthy photo_payload = true) as Htruthy by reflexivity.
  pose proof (request_of_a_call photo_call photo_header photo_payload
                Hheader Hpayload Htruthy) as (_ & _ & Hphoto).
  pose proof (request_of_a_call why photo_header photo_payload
                Hheader Hpayload Htruthy) as (_ & Htext & _).
  split; [apply Hphoto; reflexivity|apply Htext; reflexivity].
Defined.

(** X17, at work: the completion that adds the first record. *)
Lemma only_completions_add_records_witness :
  let w := run (mount (area 5000)) asked in
  let a := AnalysisSettles 0 (replying sample) 1000 1001 in
  length (history (app w)) = 0
  ∧ length (history (app (step w a))) = 1
  ∧ ∃ k reply now1 now2 call,
      a = AnalysisSettles k reply now1 now2
      ∧ analyzing w !! k = Some call
      ∧ succeeded (analyzeProblem reply) = true.
Proof.
  intros w a.
  assert (length (history (app w)) = 0) as Hbefore by (vm_compute; reflexivity).
  assert (length (history (app (step w a))) = 1) as Hafter by (vm_compute; reflexivity).
  pose proof (only_completions_add_records w a) as [_ Hadds].
  split; [exact Hbefore|]. split; [exact Hafter|].
  apply Hadds. rewrite Hbefore, Hafter. lia.
Defined.

(** X18, at work: browsing the history, opening the record, a request that
    fails. *)
Lemma nothing_written_without_mutation_witness :
  let w := run (mount (area 5000)) answered in
  quiet w browsing
  ∧ status (app (run w browsing)) = ERROR
  ∧ history (app (run w browsing)) = history (app w)
  ∧ localStorage (run w browsing) = localStorage w.
Proof.
  intros w.
  assert (quiet w browsing) as Hquiet.
  { repeat split; vm_compute; reflexivity. }
  pose proof (nothing_written_without_mutation w browsing Hquiet) as Hsame.
  split; [exact Hquiet|]. split; [vm_compute; reflexivity|]. exact Hsame.
Defined.

(** X19, at work: the answer of a report is revealed, the history tab is
    opened and the record is opened again. *)
Lemma report_starts_with_answer_hidden_witness :
  let seen := page_run (page_mount (area 5000))
                ((OnApp <$> answered) ++ [ClickShowAnswer]) in
  let p := page_run (page_mount (area 5000)) answer_revealed in
  showAnswer seen = Some true
  ∧ showAnswer p = None
  ∧ showAnswer (page_step p (OnApp (ClickHistoryDetails 0))) = Some false.
Proof.
  intros seen p.
  pose proof (report_starts_with_answer_hidden (area 5000) answer_revealed)
    as (_ & Hopened & _).
  split; [vm_compute; reflexivity|]. split; [vm_compute; reflexivity|].
  apply Hopened.
  - vm_compute. reflexivity.
  - vm_compute. eexists. reflexivity.
Defined.

(** X2, at work: six cards, none revealed; the label after one click and
    after two. *)
Lemma toggleAll_label_tells_witness :
  toggleAllHides six_hidden six = false
  ∧ toggleAllHides (toggleAllWords six_hidden) six = true
  ∧ toggleAllHides (toggleAllWords (toggleAllWords six_hidden)) six = false.
Proof.
  assert (vocabResult six_hidden = Some six) as Hsix by reflexivity.
  assert (vocabResult (toggleAllWords six_hidden) = Some six) as Hsix' by reflexivity.
  pose proof (toggleAll_label_tells six_hidden six Hsix) as [_ Hfirst].
  pose proof (toggleAll_label_tells (toggleAllWords six_hidden) six Hsix') as [_ Hsecond].
  assert (toggleAllHides six_hidden six = false) as Hshow by (vm_compute; reflexivity).
  split; [exact Hshow|].
  assert (toggleAllHides (toggleAllWords six_hidden) six = true) as Hhide.
  { rewrite Hfirst, Hshow. reflexivity. }
  split; [exact Hhide|].
  rewrite Hsecond, Hhide. reflexivity.
Defined.

End Coverage.
